(** * Telemetry decoding and windowing of the sensor dashboard

    A shallow embedding of the decoding and windowing logic of
    [src/mqttService.js] (the React component [App] it contains): the two binary record
    decoders [decodePiezoData] and [decodeTempHumData], and the MQTT
    message handler [handleMessage] with the state it updates.

    Conventions of the embedding.
    - Bytes of a decoded buffer are [Byte.byte]; a [DataView] over the
      buffer is the list of its bytes, and a read past the end (a
      [RangeError] in JavaScript) is [None].
    - JavaScript integers that the decoders compute with (header fields,
      raw samples, millisecond timestamps) are [Z]; all of them stay far
      below 2^53, where doubles are exact.
    - Other JavaScript numbers are the rationals [Q] they denote:
      [raw / 100.0] is [raw # 100], the offset average is a quotient in
      [Q].  [NaN] is [None] where a coercion can produce it. The time
      [obj.ts - offset] of a legacy reading is the double that the
      subtraction rounds to ([roundDouble]).
    - An exception is [None] in the option monad; [try]/[catch] is a
      [match] on it. *)

From Stdlib Require Import ZArith QArith Lia Lqa DecimalString Sorted.
From Stdlib Require Import Strings.Byte Strings.Ascii.
From stdpp Require Import base option list gmap strings.

Local Open Scope Z_scope.

(** ** DataView: little-endian reads with bounds checks *)

Module DataView.

Abbreviation t := (list byte).

Definition byteAt (view : t) (byteOffset : nat) : option Z :=
  b ← view !! byteOffset; Some (Z.of_N (Byte.to_N b)).

(** [view.getUint8(byteOffset)] *)
Definition getUint8 (view : t) (byteOffset : nat) : option Z :=
  byteAt view byteOffset.

(** [view.getUint16(byteOffset, true)] *)
Definition getUint16 (view : t) (byteOffset : nat) : option Z :=
  b0 ← byteAt view byteOffset;
  b1 ← byteAt view (byteOffset + 1);
  Some (Z.lor b0 (Z.shiftl b1 8)).

(** [view.getUint32(byteOffset, true)] *)
Definition getUint32 (view : t) (byteOffset : nat) : option Z :=
  b0 ← byteAt view byteOffset;
  b1 ← byteAt view (byteOffset + 1);
  b2 ← byteAt view (byteOffset + 2);
  b3 ← byteAt view (byteOffset + 3);
  Some (Z.lor (Z.lor b0 (Z.shiftl b1 8))
              (Z.lor (Z.shiftl b2 16) (Z.shiftl b3 24))).

(** [view.getInt16(byteOffset, true)]: the unsigned value read as
    two's complement. *)
Definition getInt16 (view : t) (byteOffset : nat) : option Z :=
  u ← getUint16 view byteOffset;
  Some (if u <? 32768 then u else u - 65536).

End DataView.

(** ** decodeTempHumData *)

(** The object [{ timestamp, temperature, humidity }] that
    [decodeTempHumData] returns; [th_timestamp] is its [timestamp]. *)
Record TempHum := mkTempHum {
  th_timestamp : Z;
  temperature : Q;
  humidity : Q
}.

(** The body of [decodeTempHumData] after the Base64 text has been turned
    into bytes; [None] is the [null] returned from the [catch]. *)
Definition decodeTempHumBytes (view : DataView.t) : option TempHum :=
  timestamp ← DataView.getUint32 view 0;
  tempRaw ← DataView.getInt16 view 4;
  humRaw ← DataView.getUint16 view 6;
  let temperature := (tempRaw # 100)%Q in
  let humidity := (humRaw # 100)%Q in
  Some (mkTempHum timestamp temperature humidity).

(** ** decodePiezoData *)

(** A decoded point [{ timestamp, value }]. *)
Record Sample := mkSample {
  timestamp : Z;
  value : Q
}.

(** The object [{ channels, baseTimestamp, sampleIntervalMs }] that
    [decodePiezoData] returns. *)
Record PiezoDecoded := mkPiezoDecoded {
  channels : list (list Sample);
  baseTimestamp : Z;
  sampleIntervalMs : Z
}.

(** [for (let i = start; i < start + count; i++) body], threading the
    variables the body assigns to and stopping at the first exception. *)
Fixpoint for_from {V : Type} (i count : nat)
    (body : nat → V → option V) (vars : V) : option V :=
  match count with
  | O => Some vars
  | S count' => vars' ← body i vars; for_from (S i) count' body vars'
  end.

Definition for_upto {V : Type} (n : nat) (body : nat → V → option V)
    (vars : V) : option V :=
  for_from 0 n body vars.

(** The variables the value loop of [decodePiezoData] assigns to. *)
Record LoopVars := mkLoopVars {
  offset : nat;
  invalidCount : nat;
  chans : list (list Sample)
}.

(** One iteration of the inner loop (sample [s] of channel [ch]). *)
Definition sampleStep (view : DataView.t) (baseTimestamp sampleIntervalMs : Z)
    (ch s : nat) (vars : LoopVars) : option LoopVars :=
  rawValue ← DataView.getInt16 view (offset vars);
  let timestamp := baseTimestamp * 1000 + Z.of_nat s * sampleIntervalMs in
  vars' ←
    (if rawValue =? -32768 then
       Some (mkLoopVars (offset vars) (S (invalidCount vars)) (chans vars))
     else
       let voltage := (rawValue # 100)%Q in
       (* channels[ch].push({...}); a missing channels[ch] would throw *)
       c ← chans vars !! ch;
       Some (mkLoopVars (offset vars) (invalidCount vars)
               (<[ch := c ++ [mkSample timestamp voltage]]> (chans vars))));
  Some (mkLoopVars (offset vars' + 2) (invalidCount vars') (chans vars')).

(** [decodePiezoData] on the decoded bytes.  Besides the returned object
    the result carries the final value of the local [invalidCount], which
    the function only logs. [None] is the [null] of the [catch]. *)
Definition decodePiezoTrace (view : DataView.t) : option (PiezoDecoded * nat) :=
  baseTimestamp ← DataView.getUint32 view 0;
  sampleIntervalMs ← DataView.getUint16 view 4;
  numSamples ← DataView.getUint8 view 6;
  numChannels ← DataView.getUint8 view 7;
  channels ← for_upto (Z.to_nat numChannels) (λ _ chs, Some (chs ++ [[]])) [];
  vars ← for_upto (Z.to_nat numChannels) (λ ch,
            for_upto (Z.to_nat numSamples)
              (sampleStep view baseTimestamp sampleIntervalMs ch))
          (mkLoopVars 8 0 channels);
  Some (mkPiezoDecoded (chans vars) baseTimestamp sampleIntervalMs,
        invalidCount vars).

Definition decodePiezoBytes (view : DataView.t) : option PiezoDecoded :=
  fst <$> decodePiezoTrace view.

(** *** Closed form of the value section *)

(** Byte offset of sample [s] of channel [ch] in channel-major order. *)
Definition valueOffset (numSamples ch s : nat) : nat :=
  8 + 2 * (ch * numSamples + s).

Global Arguments valueOffset : simpl never.

(** What the position ([ch], [s]) contributes to its channel. *)
Definition pointAt (view : DataView.t) (baseTimestamp sampleIntervalMs : Z)
    (numSamples ch s : nat) : option Sample :=
  raw ← DataView.getInt16 view (valueOffset numSamples ch s);
  if raw =? -32768 then None
  else Some (mkSample (baseTimestamp * 1000 + Z.of_nat s * sampleIntervalMs)
                      (raw # 100)%Q).

Definition isInvalidAt (view : DataView.t) (numSamples ch s : nat) : bool :=
  match DataView.getInt16 view (valueOffset numSamples ch s) with
  | Some raw => raw =? -32768
  | None => false
  end.

Definition channelPoints (view : DataView.t) (baseTimestamp sampleIntervalMs : Z)
    (numSamples ch : nat) : list Sample :=
  omap (pointAt view baseTimestamp sampleIntervalMs numSamples ch)
       (seq 0 numSamples).

Definition invalidInChannel (view : DataView.t) (numSamples ch : nat) : nat :=
  length (List.filter (isInvalidAt view numSamples ch) (seq 0 numSamples)).

(** Total number of sentinel positions of the value section. *)
Definition invalidTotal (view : DataView.t) (numSamples numChannels : nat) : nat :=
  sum_list (map (invalidInChannel view numSamples) (seq 0 numChannels)).

(** The value of a byte as an unsigned integer. *)
Definition u8 (b : byte) : Z := Z.of_N (Byte.to_N b).

(** Two's-complement reading of a 16-bit pattern. *)
Definition int16_of (u : Z) : Z := if u <? 32768 then u else u - 65536.

(** The record length the header of a piezo buffer declares. *)
Definition declaredLength (view : DataView.t) : option nat :=
  numSamples ← DataView.getUint8 view 6;
  numChannels ← DataView.getUint8 view 7;
  Some (8 + 2 * Z.to_nat numSamples * Z.to_nat numChannels)%nat.

(** A piezo buffer is truncated when it is shorter than its header, or
    shorter than the length its header declares. *)
Definition piezoTruncated (view : DataView.t) : Prop :=
  (length view < 8)%nat ∨
  ∃ n, declaredLength view = Some n ∧ (length view < n)%nat.


(** The raw value at position ([ch], [s]) of the value section (0 where
    the buffer ends before it). *)
Definition rawAt (view : DataView.t) (numSamples ch s : nat) : Z :=
  default 0 (DataView.getInt16 view (valueOffset numSamples ch s)).

(** ** JavaScript values of a parsed message *)

(** What [JSON.parse] can return, together with [undefined], the result
    of reading a property that is not there. Numbers are the rationals
    they denote. *)
#[local] Unset Elimination Schemes.
Inductive jsval :=
| VUndefined
| VNull
| VBool (b : bool)
| VNum (q : Q)
| VStr (s : string)
| VArr (elems : list jsval)
| VObj (props : list (string * jsval)).
#[local] Set Elimination Schemes.

(** Built-ins of the JavaScript platform that the component calls. They
    are not part of the repository and are left abstract. *)
Class Platform := {
  (** [JSON.parse(text)]; [None] is the [SyntaxError]. *)
  JSON_parse : string → option jsval;
  (** [atob(text)], as the bytes of the binary string; [None] is the
      [InvalidCharacterError]. *)
  atob : string → option (list byte);
  (** The string coercion of a value that is not a string, where the
      coercion does not throw. *)
  ToString : jsval → string;
  (** [Number(text)] on a string; [None] is [NaN]. *)
  StringToNumber : string → option Q;
  (** The double nearest to a real number: what an arithmetic operation
      on doubles returns for its exact result. *)
  roundDouble : Q → Q
}.

(** First property of that name in the property list: a property list
    stands for the object whose property [k] is the first entry named
    [k]. *)
Fixpoint assoc (k : string) (props : list (string * jsval)) : option jsval :=
  match props with
  | [] => None
  | (k', v) :: rest => if String.eqb k k' then Some v else assoc k rest
  end.

(** [x[k]] for the property names this component reads ([SensorN],
    [base64_sensordata], [ts], [v], [Temperature], [Humidity]), none of
    which is a built-in property of strings, arrays, numbers or booleans.
    [None] is the [TypeError] of reading a property of [null] or
    [undefined]. *)
Definition get_prop (x : jsval) (k : string) : option jsval :=
  match x with
  | VUndefined | VNull => None
  | VObj props => Some (default VUndefined (assoc k props))
  | _ => Some VUndefined
  end.

(** Whether the conversion of [x] to a primitive throws a [TypeError].
    A parsed object is converted by the [toString] it inherits from
    [Object.prototype], unless it has an own property of that name:
    [JSON.parse] can only fill it with a value that is not callable, and
    [valueOf], inherited or own, yields no primitive either. An array is
    converted by [join], which converts each element other than [null]. *)
Fixpoint conversionThrows (x : jsval) : bool :=
  match x with
  | VObj props =>
      match assoc "toString" props with
      | Some _ => true
      | None => false
      end
  | VArr elems => existsb conversionThrows elems
  | _ => false
  end.

(** Truthiness, as [if (x)], [x && ...] and [x || ...] test it. *)
Definition truthy (x : jsval) : bool :=
  match x with
  | VUndefined | VNull => false
  | VBool b => b
  | VNum q => negb (Qeq_bool q 0)
  | VStr s => negb (String.eqb s "")
  | VArr _ | VObj _ => true
  end.

(** [Array.isArray(x) ? x[0] : x] *)
Definition firstOrSelf (d : jsval) : jsval :=
  match d with
  | VArr elems => default VUndefined (head elems)
  | _ => d
  end.

Section WithPlatform.
Context `{Platform}.

(** The string a value is coerced to where a string is expected. *)
Definition toStr (x : jsval) : string :=
  match x with
  | VStr s => s
  | _ => ToString x
  end.

(** [Number(x)]. The outer [None] is the [TypeError] of a conversion that
    throws; of a conversion that returns, [None] is [NaN]. *)
Definition ToNumber (x : jsval) : option (option Q) :=
  match x with
  | VUndefined => Some None
  | VNull => Some (Some 0%Q)
  | VBool b => Some (Some (if b then 1%Q else 0%Q))
  | VNum q => Some (Some q)
  | VStr s => Some (StringToNumber s)
  | VArr _ | VObj _ =>
      if conversionThrows x then None else Some (StringToNumber (ToString x))
  end.

(** [Number(x) || 0]; [None] is the [TypeError] of [Number(x)]. *)
Definition NumberOrZero (x : jsval) : option Q :=
  n ← ToNumber x;
  Some match n with
       | Some q => if Qeq_bool q 0 then 0%Q else q
       | None => 0%Q
       end.

(** [decodePiezoData(base64Data)]; [None] is the returned [null]. *)
Definition decodePiezoData (base64Data : jsval) : option PiezoDecoded :=
  bytes ← atob (toStr base64Data);
  decodePiezoBytes bytes.

(** [decodeTempHumData(base64Data)]; [None] is the returned [null]. *)
Definition decodeTempHumData (base64Data : jsval) : option TempHum :=
  bytes ← atob (toStr base64Data);
  decodeTempHumBytes bytes.

End WithPlatform.

(** ** Component state *)

Module Point.
(** A stored plot point [{ time, value }]. *)
Record t := mk {
  time : Q;
  value : Q
}.
End Point.

Inductive DecoderMode := original | base64.

(** The state of [App] that the message handler reads and writes: the
    [useState] cells [piezo], [temp1], [hum1], [temp2], [hum2] and the
    refs [offsetRef] and [offsetSamples]. The counters and the log that
    only the diagnostics panel shows are left out. *)
Record State := mkState {
  piezo : gmap string (list Point.t);
  temp1 : Q;
  hum1 : Q;
  temp2 : Q;
  hum2 : Q;
  offsetRef : Q;
  offsetSamples : list Q
}.

Definition SENSOR_KEYS : list string :=
  ["A1"; "B1"; "C1"; "A2";
   "B2"; "C2"; "D1"; "E1";
   "A3"; "B3"; "C3"; "A4";
   "B4"; "C4"; "D2"; "E2"].

Definition makeEmptyState : gmap string (list Point.t) :=
  list_to_map ((λ k, (k, [])) <$> SENSOR_KEYS).

Definition initialState : State :=
  mkState makeEmptyState 0 0 0 0 0 [].

Definition WINDOW_MS : Q := 20000.
Definition OFFSET_SAMPLE_SIZE : nat := 20.

(** [TOPIC_MAP]; [topic in TOPIC_MAP] is [is_Some (TOPIC_MAP !! topic)]
    (only subscribed topics are delivered, so names inherited from
    [Object.prototype] do not occur as topics). *)
Definition TOPIC_MAP : gmap string (list string) :=
  {[ "iot/piezo" := ["A1"; "B1"; "C1"; "A2"] ]}.

Definition setPiezo (f : gmap string (list Point.t) → gmap string (list Point.t))
    (st : State) : State :=
  mkState (f (piezo st)) (temp1 st) (hum1 st) (temp2 st) (hum2 st)
          (offsetRef st) (offsetSamples st).

Definition setTemp1 (x : Q) (st : State) : State :=
  mkState (piezo st) x (hum1 st) (temp2 st) (hum2 st)
          (offsetRef st) (offsetSamples st).

Definition setHum1 (x : Q) (st : State) : State :=
  mkState (piezo st) (temp1 st) x (temp2 st) (hum2 st)
          (offsetRef st) (offsetSamples st).

(** [prev[key] || []] *)
Definition windowOf (prev : gmap string (list Point.t)) (key : string)
    : list Point.t :=
  default [] (prev !! key).

(** [d => now - d.time <= WINDOW_MS] *)
Definition inWindow (now : Z) (d : Point.t) : bool :=
  Qle_bool (inject_Z now - Point.time d) WINDOW_MS.

(** [[...oldArr, ...newPoints].filter(d => now - d.time <= WINDOW_MS)] *)
Definition combine (now : Z) (oldArr newPoints : list Point.t) : list Point.t :=
  List.filter (inWindow now) (oldArr ++ newPoints).

(** The template string [`Sensor${i + 1}`]. *)
Definition sensorName (i : nat) : string :=
  "Sensor" +:+ NilEmpty.string_of_uint (Nat.to_uint (i + 1)).

(** ** Binary mode: storing a decoded batch *)

(** [point => ({ time: point.timestamp, value: point.value })] *)
Definition toPoint (point : Sample) : Point.t :=
  Point.mk (inject_Z (timestamp point)) (value point).

(** One iteration of the mapping loop of the binary updater. An index
    outside [mapping] or [decoded.channels] cannot occur below the loop
    bound. *)
Definition storeChannel (now : Z) (mapping : list string)
    (decoded : PiezoDecoded) (prev : gmap string (list Point.t))
    (i : nat) (updated : gmap string (list Point.t))
    : gmap string (list Point.t) :=
  match mapping !! i, channels decoded !! i with
  | Some mappedKey, Some channel =>
      let oldArr := windowOf prev mappedKey in
      let newPoints := toPoint <$> channel in
      <[mappedKey := combine now oldArr newPoints]> updated
  | _, _ => updated
  end.

(** The updater passed to [setPiezo] in binary mode. *)
Definition storeDecoded (now : Z) (mapping : list string)
    (decoded : PiezoDecoded) (prev : gmap string (list Point.t))
    : gmap string (list Point.t) :=
  foldl (λ updated i, storeChannel now mapping decoded prev i updated)
        prev
        (seq 0 (Nat.min (length mapping) (length (channels decoded)))).

(** ** Legacy mode: offset estimate and per-reading points *)

(** The body of [if (sample && typeof sample.ts === 'number')]: push the
    offset sample, drop the oldest beyond the bound, store the mean. *)
Definition observeOffset (offsetSample : Q) (st : State) : State :=
  let pushed := offsetSamples st ++ [offsetSample] in
  let kept :=
    if (OFFSET_SAMPLE_SIZE <? length pushed)%nat then tail pushed else pushed in
  let avg := (foldl Qplus 0 kept / inject_Z (Z.of_nat (length kept)))%Q in
  mkState (piezo st) (temp1 st) (hum1 st) (temp2 st) (hum2 st) avg kept.

(** The device timestamp of a sample, when
    [sample && typeof sample.ts === 'number'] holds. *)
Definition deviceTs (sample : jsval) : option Q :=
  if truthy sample then
    match get_prop sample "ts" with
    | Some (VNum ts) => Some ts
    | _ => None
    end
  else None.

(** The loop that updates the running offset: the first of [count] slots
    from [i] on whose first sample carries a numeric [ts] is observed, and
    the loop breaks. [None] is the [TypeError] of [data[...]] on [null]. *)
Fixpoint updateOffset (i count : nat) (data : jsval) (browserNow : Z)
    (st : State) : option State :=
  match count with
  | O => Some st
  | S count' =>
      d ← get_prop data (sensorName i);
      let sample := firstOrSelf d in
      match deviceTs sample with
      | Some ts =>
          let offsetSample := (ts - inject_Z browserNow)%Q in
          Some (observeOffset offsetSample st)
      | None => updateOffset (S i) count' data browserNow st
      end
  end.

Section WithPlatform.
Context `{Platform}.

(** [obj => ({ time: typeof obj.ts === 'number' ? (obj.ts - offset) : now,
               value: Number(obj.v) || 0 })];
    [None] is a [TypeError]: of reading a property of [null], or of
    [Number(obj.v)]. [offset] is [offsetRef.current] and [now] is
    [Date.now()], both as the updater reads them when it runs. *)
Definition readingPoint (offset : Q) (now : Z) (obj : jsval) : option Point.t :=
  ts ← get_prop obj "ts";
  let time :=
    match ts with
    | VNum ts => roundDouble (ts - offset)
    | _ => inject_Z now
    end in
  v ← get_prop obj "v";
  value ← NumberOrZero v;
  Some (Point.mk time value).

(** [Array.isArray(raw) ? raw : (raw ? [raw] : [])] *)
Definition readingsOf (raw : jsval) : list jsval :=
  match raw with
  | VArr elems => elems
  | _ => if truthy raw then [raw] else []
  end.

(** One iteration of the mapping loop of the legacy updater. *)
Definition storeReadings (offset : Q) (now : Z) (mapping : list string)
    (data : jsval) (prev : gmap string (list Point.t))
    (i : nat) (updated : gmap string (list Point.t))
    : option (gmap string (list Point.t)) :=
  match mapping !! i with
  | Some mappedKey =>
      raw ← get_prop data (sensorName i);
      let oldArr := windowOf prev mappedKey in
      let arr := readingsOf raw in
      newPoints ← mapM (readingPoint offset now) arr;
      Some (<[mappedKey := combine now oldArr newPoints]> updated)
  | None => Some updated
  end.

(** The updater passed to [setPiezo] in legacy mode; [None] when it
    throws. *)
Definition storeLegacy (offset : Q) (now : Z) (mapping : list string)
    (data : jsval) (prev : gmap string (list Point.t))
    : option (gmap string (list Point.t)) :=
  for_upto (length mapping) (storeReadings offset now mapping data prev) prev.

(** ** handleMessage *)

(** How the handling of one message ended. *)
Inductive Status :=
| Completed       (* ran to the end *)
| Caught          (* an exception reached the handler's [catch] and was logged *)
| UpdaterThrew.   (* the state updater threw; no [catch] of the handler covers it *)

(** [decoderMode === 'base64' && data.base64_sensordata], as a test. *)
Definition useBase64 (decoderMode : DecoderMode) (data : jsval) : option bool :=
  match decoderMode with
  | base64 => truthy <$> get_prop data "base64_sensordata"
  | original => Some false
  end.

(** The [try] block of the piezo branch; [None] is an exception thrown in
    it. Nothing of the state has been written when the block throws: the
    only statements that can throw come before the first write. *)
Definition piezoTry (decoderMode : DecoderMode) (browserNow now : Z)
    (mapping : list string) (message : string) (st : State)
    : option (State * Status) :=
  data ← JSON_parse message;
  b ← useBase64 decoderMode data;
  if b : bool then
    base64_sensordata ← get_prop data "base64_sensordata";
    match decodePiezoData base64_sensordata with
    | Some decoded =>
        Some (setPiezo (storeDecoded now mapping decoded) st, Completed)
    | None => Some (st, Completed)
    end
  else
    st' ← updateOffset 0 4 data browserNow st;
    let offset := offsetRef st' in
    match storeLegacy offset now mapping data (piezo st') with
    | Some updated => Some (setPiezo (λ _, updated) st', Completed)
    | None => Some (st', UpdaterThrew)
    end.

(** The statements of the temperature branch in legacy mode:
    [setTemp1(Number(data.Temperature) || 0)], then
    [setHum1(Number(data.Humidity) || 0)]. When the second conversion
    throws, the first write has been made. *)
Definition tempLegacy (data : jsval) (st : State) : State * Status :=
  match Temperature ← get_prop data "Temperature"; NumberOrZero Temperature with
  | None => (st, Caught)
  | Some t =>
      let st' := setTemp1 t st in
      match Humidity ← get_prop data "Humidity"; NumberOrZero Humidity with
      | None => (st', Caught)
      | Some h => (setHum1 h st', Completed)
      end
  end.

(** The temperature branch: its [try] block and its [catch]. *)
Definition tempTry (decoderMode : DecoderMode) (message : string) (st : State)
    : State * Status :=
  match JSON_parse message with
  | None => (st, Caught)
  | Some data =>
      match useBase64 decoderMode data with
      | None => (st, Caught)
      | Some true =>
          match get_prop data "base64_sensordata" with
          | None => (st, Caught)
          | Some base64_sensordata =>
              match decodeTempHumData base64_sensordata with
              | Some decoded =>
                  (setHum1 (humidity decoded)
                           (setTemp1 (temperature decoded) st), Completed)
              | None => (st, Completed)
              end
          end
      | Some false => tempLegacy data st
      end
  end.

(** [handleMessage(topic, message)] under the given decoder mode.
    [browserNow] is the clock read at the entry of the handler and [now]
    the clock read by the state updater, which is run at once. *)
Definition handleMessage (decoderMode : DecoderMode) (browserNow now : Z)
    (topic message : string) (st : State) : State * Status :=
  match TOPIC_MAP !! topic with
  | Some mapping =>
      match piezoTry decoderMode browserNow now mapping message st with
      | Some result => result
      | None => (st, Caught)
      end
  | None =>
      if String.eqb topic "iot/temp" then tempTry decoderMode message st
      else (st, Completed)
  end.

(** One delivery of the transport. *)
Record Delivery := mkDelivery {
  d_mode : DecoderMode;
  d_browserNow : Z;
  d_now : Z;
  d_topic : string;
  d_message : string
}.

Definition deliver (st : State) (d : Delivery) : State :=
  fst (handleMessage (d_mode d) (d_browserNow d) (d_now d)
                     (d_topic d) (d_message d) st).

(** The messages of a run, handled one after the other. *)
Definition processAll (ds : list Delivery) (st : State) : State :=
  foldl deliver st ds.

End WithPlatform.

(** ** A concrete platform for running the model

    A Base64 decoder for the standard alphabet with optional padding, a
    parser that knows the messages of the examples below, coercions that
    know no numeric strings, and rounding to the nearest double. *)

Module Demo.

Definition sextet (c : Ascii.ascii) : option N :=
  let n := Ascii.N_of_ascii c in
  if ((65 <=? n) && (n <=? 90))%N then Some (n - 65)%N
  else if ((97 <=? n) && (n <=? 122))%N then Some (n - 71)%N
  else if ((48 <=? n) && (n <=? 57))%N then Some (n + 4)%N
  else if (n =? 43)%N then Some 62%N
  else if (n =? 47)%N then Some 63%N
  else None.

Definition byte_of (n : N) : byte :=
  default Byte.x00 (Byte.of_N (n mod 256)).

(** Four sextets make three bytes; a tail of two or three sextets makes
    one or two; a tail of one is malformed. *)
Fixpoint octets (fuel : nat) (l : list N) : option (list byte) :=
  match fuel with
  | O => None
  | S fuel' =>
      match l with
      | [] => Some []
      | [_] => None
      | [a; b] => Some [byte_of (a * 4 + b / 16)]
      | [a; b; c] => Some [byte_of (a * 4 + b / 16); byte_of (b * 16 + c / 4)]
      | a :: b :: c :: d :: rest =>
          tl ← octets fuel' rest;
          Some (byte_of (a * 4 + b / 16) :: byte_of (b * 16 + c / 4)
                :: byte_of (c * 64 + d) :: tl)
      end
  end.

Fixpoint strip_padding (n : nat) (rev_chars : list Ascii.ascii) : list Ascii.ascii :=
  match n, rev_chars with
  | S n', c :: rest =>
      if Ascii.eqb c "="%char then strip_padding n' rest else rev_chars
  | _, _ => rev_chars
  end.

Definition decode (text : string) : option (list byte) :=
  let chars := reverse (strip_padding 2 (reverse (String.list_ascii_of_string text))) in
  sextets ← mapM sextet chars;
  octets (S (length sextets)) sextets.

(** A message text, written with ['] where JSON has the double quote. *)
Definition json (text : string) : string :=
  String.string_of_list_ascii
    (map (λ c, if Ascii.eqb c "'"%char then Ascii.ascii_of_nat 34 else c)
         (String.list_ascii_of_string text)).

(** The parsed form of each message text used in the examples. *)
Definition messages : list (string * jsval) :=
  [ (json "{'base64_sensordata':'OWk8Z2QAAwJkAACA+gCc/wEAAIA='}",
     VObj [("base64_sensordata", VStr "OWk8Z2QAAwJkAACA+gCc/wEAAIA=")]);
    (json "{'base64_sensordata':'OWk8Z2QAAwJkAACA+gCc/wEAAA=='}",
     VObj [("base64_sensordata", VStr "OWk8Z2QAAwJkAACA+gCc/wEAAA==")]);
    (json "{'base64_sensordata':'OWk8Z2QAAQUKABQAHgAoADIA'}",
     VObj [("base64_sensordata", VStr "OWk8Z2QAAQUKABQAHgAoADIA")]);
    (json "{'base64_sensordata':'WZpGZykJhRo='}",
     VObj [("base64_sensordata", VStr "WZpGZykJhRo=")]);
    (json "{'Sensor1':{'ts':1732012345500,'v':true}}",
     VObj [("Sensor1", VObj [("ts", VNum 1732012345500); ("v", VBool true)])]);
    (json "{'Sensor1':{'ts':1732012345500}}",
     VObj [("Sensor1", VObj [("ts", VNum 1732012345500)])]);
    (json "{'Sensor2':[{'v':1.5},{'ts':1732012345500,'v':'n/a'}]}",
     VObj [("Sensor2", VArr [VObj [("v", VNum 1.5)];
                             VObj [("ts", VNum 1732012345500); ("v", VStr "n/a")]])]);
    (json "{'Temperature':21.5,'Humidity':40}",
     VObj [("Temperature", VNum 21.5); ("Humidity", VNum 40)]);
    (json "{'Sensor1':[null]}",
     VObj [("Sensor1", VArr [VNull])]);
    (json "{'Sensor1':{'v':2},'Sensor2':{'ts':1732012345500,'v':3}}",
     VObj [("Sensor1", VObj [("v", VNum 2)]);
           ("Sensor2", VObj [("ts", VNum 1732012345500); ("v", VNum 3)])]);
    (json "{'Sensor1':{'ts':1732012345500,'v':{'toString':1}}}",
     VObj [("Sensor1", VObj [("ts", VNum 1732012345500);
                             ("v", VObj [("toString", VNum 1)])])]);
    (json "{'Temperature':{'toString':1},'Humidity':40}",
     VObj [("Temperature", VObj [("toString", VNum 1)]); ("Humidity", VNum 40)]);
    (json "{'Temperature':21.5,'Humidity':{'toString':1}}",
     VObj [("Temperature", VNum 21.5); ("Humidity", VObj [("toString", VNum 1)])]);
    ("null", VNull);
    ("{}", VObj [])
  ].

Definition parse (text : string) : option jsval :=
  assoc text messages.

(** [num / den] rounded to the nearest integer, ties to the even one,
    for [num >= 0] and [den > 0]. *)
Definition half_even (num den : Z) : Z :=
  let m := num / den in
  let r := num mod den in
  if 2 * r <? den then m
  else if den <? 2 * r then m + 1
  else if Z.even m then m else m + 1.

(** The double nearest to [q], ties to even: 53 significant bits, and
    no bit below 2^-1074. Results beyond the largest double, which
    JavaScript turns into an infinity, are outside the model. *)
Definition round (q : Q) : Q :=
  let n := Qnum q in
  let d := Zpos (Qden q) in
  if n =? 0 then 0%Q
  else
    let a := Z.abs n in
    let e0 := Z.log2 a - Z.log2 d in
    let below :=
      if 0 <=? e0 then a <? d * 2 ^ e0 else a * 2 ^ (- e0) <? d in
    let e := if below then e0 - 1 else e0 in
    let s := Z.max (e - 52) (-1074) in
    let m :=
      if 0 <=? s then half_even a (d * 2 ^ s)
      else half_even (a * 2 ^ (- s)) d in
    if 0 <=? s then inject_Z (Z.sgn n * m * 2 ^ s)
    else Qred (Qmake (Z.sgn n * m) (Z.to_pos (2 ^ (- s)))).

Definition platform : Platform :=
  {| JSON_parse := parse;
     atob := decode;
     ToString := λ _, "[object Object]";
     StringToNumber := λ _, None;
     roundDouble := round |}.

End Demo.


(** The piezo batch of the examples: base timestamp 1732012345 s,
    interval 100 ms, 3 samples for each of 2 channels, with values
    100, sentinel, 250 and -100, 1, sentinel. *)
Definition piezo_example : list byte :=
  [Byte.x39; Byte.x69; Byte.x3c; Byte.x67;  Byte.x64; Byte.x00;
   Byte.x03;  Byte.x02;
   Byte.x64; Byte.x00;  Byte.x00; Byte.x80;  Byte.xfa; Byte.x00;
   Byte.x9c; Byte.xff;  Byte.x01; Byte.x00;  Byte.x00; Byte.x80].

(** The temperature/humidity record [59 9A 46 67 29 09 85 1A]. *)
Definition temphum_example : list byte :=
  [Byte.x59; Byte.x9a; Byte.x46; Byte.x67;
   Byte.x29; Byte.x09;  Byte.x85; Byte.x1a].

(** ** Notions used to state the properties of the handler *)

(** The binary updater after its first [n] iterations. *)
Definition storedAfter (now : Z) (mapping : list string) (decoded : PiezoDecoded)
    (prev : gmap string (list Point.t)) (n : nat) : gmap string (list Point.t) :=
  foldl (λ updated i, storeChannel now mapping decoded prev i updated)
        prev (seq 0 n).

(** The window of [key] in [m] is either the one of [prev] or a filtered
    append to the one of [prev]. *)
Definition appendedOrKept (now : Z) (prev : gmap string (list Point.t))
    (key : string) (m : gmap string (list Point.t)) : Prop :=
  m !! key = prev !! key ∨
  ∃ newPoints, m !! key = Some (combine now (windowOf prev key) newPoints).

(** An element is within the window at local time [now]. *)
Definition withinWindow (now : Z) (d : Point.t) : Prop :=
  (inject_Z now - Point.time d <= WINDOW_MS)%Q.

(** The arithmetic mean of a sequence of offsets. *)
Definition Qsum (l : list Q) : Q := fold_right Qplus 0%Q l.

Definition mean (l : list Q) : Q :=
  (Qsum l / inject_Z (Z.of_nat (length l)))%Q.

(** The estimator after observing the offsets of [xs] in order. *)
Definition observeAll (xs : list Q) (st : State) : State :=
  foldl (λ st x, observeOffset x st) st xs.

(** The estimator holds at most [OFFSET_SAMPLE_SIZE] samples, and its
    estimate is 0 before the first sample and the mean of the held samples
    afterwards. *)
Definition estimatorOK (st : State) : Prop :=
  (length (offsetSamples st) ≤ OFFSET_SAMPLE_SIZE)%nat ∧
  (offsetSamples st = [] → offsetRef st = 0%Q) ∧
  (offsetSamples st ≠ [] → (offsetRef st == mean (offsetSamples st))%Q).

(** A delivery whose payload is not valid JSON, or whose Base64 record
    the decoder of its topic rejects in binary mode. *)
Definition undecodable `{Platform} (d : Delivery) : Prop :=
  JSON_parse (d_message d) = None ∨
  (d_mode d = base64 ∧
   ∃ data b,
     JSON_parse (d_message d) = Some data ∧
     get_prop data "base64_sensordata" = Some b ∧
     truthy b = true ∧
     ((is_Some (TOPIC_MAP !! d_topic d) ∧ decodePiezoData b = None) ∨
      (d_topic d = "iot/temp" ∧ decodeTempHumData b = None))).

(** ** Notions used to state further properties *)

(** [x == null], that is [null] or [undefined]: the values whose
    properties cannot be read. *)
Definition isNullish (x : jsval) : bool :=
  match x with
  | VUndefined | VNull => true
  | _ => false
  end.

(** [data[`Sensor${i + 1}`]] of a payload whose properties can be read. *)
Definition slotValue (data : jsval) (i : nat) : jsval :=
  default VUndefined (get_prop data (sensorName i)).


(** The callback of the legacy updater returns for the reading [obj]:
    [obj] is not [null], and [Number(obj.v)] does not throw. *)
Definition readingConverts (obj : jsval) : bool :=
  match get_prop obj "v" with
  | Some v => negb (conversionThrows v)
  | None => false
  end.

(** The callback returns for every reading of slot [i]. *)
Definition slotReadable (data : jsval) (i : nat) : bool :=
  forallb readingConverts (readingsOf (slotValue data i)).

(** The callback returns for every reading of the four sensor slots. *)
Definition readingsConvert (data : jsval) : bool :=
  forallb (slotReadable data) (seq 0 4).

(** The topics the component subscribes to, the only ones the broker
    delivers to it. *)
Definition subscribeTopics : list string := ["iot/piezo"; "iot/temp"].

(** ** Connection state and diagnostics

    The [useState] cells that the connection handlers and the first
    lines of [handleMessage] write. The clock text
    [new Date().toLocaleTimeString()] is an argument of each handler. The
    texts are those of the source file. *)

(** The object [{ topic, time, length, preview }] of [setLastMessage];
    the preview is a JavaScript string, kept as its UTF-16 code units. *)
Record LastMessage := mkLastMessage {
  lm_topic : string;
  lm_time : string;
  lm_length : nat;
  lm_preview : list N
}.

Record Diagnostics := mkDiagnostics {
  isConnected : bool;
  messageCount : nat;
  lastMessage : option LastMessage;
  connectionEvents : list (string * string);
  topicMessages : gmap string nat
}.

(** The initial values of the cells. *)
Definition initialDiagnostics : Diagnostics :=
  mkDiagnostics false 0 None [] ∅.

Definition setIsConnected (b : bool) (dg : Diagnostics) : Diagnostics :=
  mkDiagnostics b (messageCount dg) (lastMessage dg) (connectionEvents dg)
                (topicMessages dg).

(** [array.slice(-10)] *)
Definition sliceLast10 {A : Type} (l : list A) : list A :=
  drop (length l - 10) l.

(** [addConnectionEvent(event)]: the entry [{ time, event }] is the pair
    of the two texts. *)
Definition addConnectionEvent (timestamp event : string) (dg : Diagnostics)
    : Diagnostics :=
  mkDiagnostics (isConnected dg) (messageCount dg) (lastMessage dg)
                (sliceLast10 (connectionEvents dg ++ [(timestamp, event)]))
                (topicMessages dg).

(** [handleConnect]; the callbacks of its [client.subscribe] calls run
    later, each as a [subscribeCallback]. *)
Definition handleConnect (timestamp : string) (dg : Diagnostics) : Diagnostics :=
  addConnectionEvent timestamp "‚úÖ Connected to MQTT broker" (setIsConnected true dg).

(** The callback [err => ...] of [client.subscribe(t, ...)]. *)
Definition subscribeCallback (t : string) (err : bool) (timestamp : string)
    (dg : Diagnostics) : Diagnostics :=
  if err then addConnectionEvent timestamp ("‚ùå Failed to subscribe to " +:+ t) dg
  else addConnectionEvent timestamp ("‚úÖ Subscribed to " +:+ t) dg.

Definition handleDisconnect (timestamp : string) (dg : Diagnostics) : Diagnostics :=
  addConnectionEvent timestamp "‚ùå Disconnected from MQTT broker" (setIsConnected false dg).

Definition handleReconnect (timestamp : string) (dg : Diagnostics) : Diagnostics :=
  addConnectionEvent timestamp "üîÑ Attempting to reconnect..." dg.

Definition handleOffline (timestamp : string) (dg : Diagnostics) : Diagnostics :=
  addConnectionEvent timestamp "üì¥ Client went offline" (setIsConnected false dg).

(** The listener of the client's [error] event that one run of the
    effect attaches. *)
Definition handleError (message timestamp : string) (dg : Diagnostics)
    : Diagnostics :=
  addConnectionEvent timestamp ("‚ùå Error: " +:+ message)
                     (setIsConnected false dg).

(** The last statement of the effect, run when the effect runs. *)
Definition logInitialized (timestamp : string) (dg : Diagnostics) : Diagnostics :=
  addConnectionEvent timestamp "üöÄ Dashboard initialized" dg.

(** The first statements of [handleMessage]: count the message, count it
    for its topic, remember it. [text] is [message.toString()] as its
    UTF-16 code units and [length] is [message.length]. The counter
    [prev[topic]] is the own property of that name: the topics delivered
    are the subscribed ones, none of which names a member of
    [Object.prototype]. *)
Definition countMessage (topic : string) (text : list N) (length : nat)
    (time : string) (dg : Diagnostics) : Diagnostics :=
  mkDiagnostics (isConnected dg)
    (messageCount dg + 1)
    (Some (mkLastMessage topic time length (take 100 text)))
    (connectionEvents dg)
    (<[topic := (default 0%nat (topicMessages dg !! topic) + 1)%nat]>
       (topicMessages dg)).

(** What the client and React make the component run. The cleanup of
    the effect removes every listener but the one of [error], so an
    [error] event runs one listener for each run of the effect so far:
    the oldest reads the clock as [timestamp], the others, in the order
    they were attached, as [later]. *)
Inductive ClientEvent :=
| EvConnect (timestamp : string)
| EvSubscribed (t : string) (err : bool) (timestamp : string)
| EvDisconnect (timestamp : string)
| EvReconnect (timestamp : string)
| EvOffline (timestamp : string)
| EvError (message timestamp : string) (later : list string)
| EvMessage (topic : string) (text : list N) (length : nat) (time : string)
| EvEffect (timestamp : string).

Definition handleEvent (dg : Diagnostics) (ev : ClientEvent) : Diagnostics :=
  match ev with
  | EvConnect timestamp => handleConnect timestamp dg
  | EvSubscribed t err timestamp => subscribeCallback t err timestamp dg
  | EvDisconnect timestamp => handleDisconnect timestamp dg
  | EvReconnect timestamp => handleReconnect timestamp dg
  | EvOffline timestamp => handleOffline timestamp dg
  | EvError message timestamp later =>
      foldl (λ dg t, handleError message t dg) dg (timestamp :: later)
  | EvMessage topic text length time => countMessage topic text length time dg
  | EvEffect timestamp => logInitialized timestamp dg
  end.

Definition handleEvents (evs : list ClientEvent) (dg : Diagnostics) : Diagnostics :=
  foldl handleEvent dg evs.

(** The events that write [isConnected]. *)
Definition writesConnected (ev : ClientEvent) : bool :=
  match ev with
  | EvConnect _ | EvDisconnect _ | EvOffline _ | EvError _ _ _ => true
  | _ => false
  end.

Definition isMessage (ev : ClientEvent) : bool :=
  match ev with
  | EvMessage _ _ _ _ => true
  | _ => false
  end.

Definition isMessageOn (topic : string) (ev : ClientEvent) : bool :=
  match ev with
  | EvMessage t _ _ _ => String.eqb t topic
  | _ => false
  end.

(** An event that the client can raise: a message is on a subscribed
    topic. *)
Definition onSubscribedTopic (ev : ClientEvent) : Prop :=
  match ev with
  | EvMessage t _ _ _ => t ∈ subscribeTopics
  | _ => True
  end.

(** A session for the examples: the effect runs, the client connects and
    subscribes, two piezo messages and one temp message arrive, the
    decoder is toggled (the effect runs again) and an error is raised. *)
Definition demo_session : list ClientEvent :=
  [ EvEffect "10:00:00"; EvConnect "10:00:01";
    EvSubscribed "iot/piezo" false "10:00:01";
    EvSubscribed "iot/temp" false "10:00:01";
    EvMessage "iot/piezo" [123; 125]%N 2 "10:00:02";
    EvMessage "iot/temp" [123; 125]%N 2 "10:00:03";
    EvMessage "iot/piezo" [110; 117; 108; 108]%N 4 "10:00:04";
    EvEffect "10:00:05";
    EvError "timeout" "10:00:06" ["10:00:06"] ].

(** A run on both subscribed topics: a binary batch of five channels, a
    legacy temperature reading, a legacy reading with a boolean [v]. *)
Definition demo_run : list Delivery :=
  [ mkDelivery base64 1732012345000 1732012346000 "iot/piezo"
      (Demo.json "{'base64_sensordata':'OWk8Z2QAAQUKABQAHgAoADIA'}");
    mkDelivery original 1732012346000 1732012346500 "iot/temp"
      (Demo.json "{'Temperature':21.5,'Humidity':40}");
    mkDelivery original 1732012347000 1732012347500 "iot/piezo"
      (Demo.json "{'Sensor1':{'ts':1732012345500,'v':true}}") ].
(** ** Facts about DataView reads *)

Section DataViewFacts.
Import DataView.

Lemma byteAt_Some (view : DataView.t) (i : nat) :
  (i < length view)%nat → ∃ b, byteAt view i = Some b ∧ 0 ≤ b < 256.
Proof.
  intros Hi. unfold byteAt.
  destruct (view !! i) as [b|] eqn:Hb.
  - simpl. eexists; split; [reflexivity|].
    destruct b; vm_compute; split; congruence.
  - apply lookup_ge_None_1 in Hb. lia.
Qed.

Lemma byteAt_None (view : DataView.t) (i : nat) :
  (length view ≤ i)%nat → byteAt view i = None.
Proof.
  intros Hi. unfold byteAt. by rewrite lookup_ge_None_2.
Qed.

Lemma getUint16_Some (view : DataView.t) (off : nat) :
  (off + 2 ≤ length view)%nat → is_Some (getUint16 view off).
Proof.
  intros H. unfold getUint16.
  destruct (byteAt_Some view off) as (b0 & -> & _); [lia|].
  destruct (byteAt_Some view (off + 1)) as (b1 & -> & _); [lia|].
  simpl. eauto.
Qed.

Lemma getUint16_None (view : DataView.t) (off : nat) :
  (length view < off + 2)%nat → getUint16 view off = None.
Proof.
  intros H. unfold getUint16.
  destruct (decide (off < length view)%nat) as [Hlt|Hge].
  - destruct (byteAt_Some view off Hlt) as (b0 & -> & _). simpl.
    rewrite (byteAt_None view (off + 1)) by lia. reflexivity.
  - rewrite (byteAt_None view off) by lia. reflexivity.
Qed.

Lemma getInt16_Some (view : DataView.t) (off : nat) :
  (off + 2 ≤ length view)%nat → is_Some (getInt16 view off).
Proof.
  intros H. unfold getInt16.
  destruct (getUint16_Some view off H) as [u ->]. simpl. eauto.
Qed.

Lemma getInt16_None (view : DataView.t) (off : nat) :
  (length view < off + 2)%nat → getInt16 view off = None.
Proof.
  intros H. unfold getInt16. by rewrite getUint16_None.
Qed.

Lemma getUint8_None (view : DataView.t) (off : nat) :
  (length view ≤ off)%nat → getUint8 view off = None.
Proof. apply byteAt_None. Qed.

End DataViewFacts.

(** ** The value loop computes the closed form *)

Section PiezoLoop.
Variable view : DataView.t.
Variables bt si : Z.
Variable ns : nat.

Lemma sampleStep_read (ch s off inv : nat) chs (raw : Z) :
  DataView.getInt16 view off = Some raw →
  sampleStep view bt si ch s (mkLoopVars off inv chs) =
  if raw =? -32768 then Some (mkLoopVars (off + 2) (S inv) chs)
  else c ← chs !! ch;
       Some (mkLoopVars (off + 2) inv
               (<[ch := c ++ [mkSample (bt * 1000 + Z.of_nat s * si)
                                       (raw # 100)]]> chs)).
Proof.
  intros Hraw. unfold sampleStep. simpl. rewrite Hraw. simpl.
  destruct (raw =? -32768); [done|].
  by destruct (chs !! ch).
Qed.

Lemma sample_loop_spec (ch count : nat) : ∀ (i : nat) (vars : LoopVars) c,
  offset vars = valueOffset ns ch i →
  chans vars !! ch = Some c →
  (∀ s, (i ≤ s < i + count)%nat →
        is_Some (DataView.getInt16 view (valueOffset ns ch s))) →
  for_from i count (sampleStep view bt si ch) vars =
  Some (mkLoopVars (valueOffset ns ch (i + count))
          (invalidCount vars +
           length (List.filter (isInvalidAt view ns ch) (seq i count)))
          (<[ch := c ++ omap (pointAt view bt si ns ch) (seq i count)]>
             (chans vars))).
Proof.
  induction count as [|count IH]; intros i [off inv chs] c Hoff Hc Hrd;
    simpl in *.
  - rewrite app_nil_r, list_insert_id by done.
    subst off. do 2 f_equal; [f_equal|]; lia.
  - destruct (Hrd i ltac:(lia)) as [raw Hraw]. subst off.
    assert (Hinv : isInvalidAt view ns ch i = (raw =? -32768))
      by (unfold isInvalidAt; by rewrite Hraw).
    assert (Hpt : pointAt view bt si ns ch i =
                  if raw =? -32768 then None
                  else Some (mkSample (bt * 1000 + Z.of_nat i * si) (raw # 100)))
      by (unfold pointAt; by rewrite Hraw).
    rewrite Hinv, Hpt, (sampleStep_read _ _ _ _ _ raw Hraw).
    destruct (raw =? -32768) eqn:Hs; simpl.
    + rewrite (IH (S i) _ c); simpl.
      * do 2 f_equal; [f_equal|]; unfold valueOffset; lia.
      * unfold valueOffset; lia.
      * done.
      * intros s Hs'. apply Hrd. lia.
    + rewrite Hc. simpl.
      rewrite (IH (S i) _ (c ++ [mkSample (bt * 1000 + Z.of_nat i * si) (raw # 100)])); simpl.
      * rewrite list_insert_insert_eq, <- app_assoc. simpl.
        replace (i + S count)%nat with (S (i + count)) by lia. reflexivity.
      * unfold valueOffset; lia.
      * apply list_lookup_insert_eq. by eapply lookup_lt_Some.
      * intros s Hs'. apply Hrd. lia.
Qed.

Lemma channel_loop_spec (count : nat) :
  ∀ (j : nat) (vars : LoopVars) (filled : list (list Sample)),
  offset vars = valueOffset ns j 0 →
  chans vars = filled ++ replicate count [] →
  length filled = j →
  (∀ ch s, (j ≤ ch < j + count)%nat → (s < ns)%nat →
           is_Some (DataView.getInt16 view (valueOffset ns ch s))) →
  for_from j count (λ ch, for_upto ns (sampleStep view bt si ch)) vars =
  Some (mkLoopVars (valueOffset ns (j + count) 0)
          (invalidCount vars +
           sum_list (map (invalidInChannel view ns) (seq j count)))
          (filled ++ map (channelPoints view bt si ns) (seq j count))).
Proof.
  induction count as [|count IH]; intros j [off inv chs] filled Hoff Hch Hlen Hrd;
    simpl in *.
  - subst off chs. rewrite !app_nil_r.
    do 2 f_equal; [f_equal|]; lia.
  - unfold for_upto in *.
    rewrite (sample_loop_spec j ns 0 _ []); simpl.
    + rewrite (IH (S j) _ (filled ++ [channelPoints view bt si ns j])); simpl.
      * rewrite <- app_assoc. simpl. unfold invalidInChannel at 2.
        do 2 f_equal; [f_equal|]; unfold valueOffset; lia.
      * unfold valueOffset; lia.
      * subst chs. rewrite <- app_assoc. simpl.
        rewrite <- Hlen. rewrite insert_app_r_alt by lia.
        by rewrite Nat.sub_diag.
      * rewrite length_app. simpl. lia.
      * intros ch s Hch' Hs. apply Hrd; lia.
    + done.
    + subst chs. rewrite <- Hlen. apply list_lookup_middle. reflexivity.
    + intros s Hs. apply Hrd; lia.
Qed.

End PiezoLoop.

Lemma init_loop_spec (count : nat) : ∀ (i : nat) (acc : list (list Sample)),
  for_from i count (λ _ chs, Some (chs ++ [[]])) acc =
  Some (acc ++ replicate count []).
Proof.
  induction count as [|count IH]; intros i acc; simpl.
  - by rewrite app_nil_r.
  - rewrite IH, <- app_assoc. reflexivity.
Qed.

(** The declared record length need not exceed the buffer for the whole
    value section to be readable. *)
Lemma value_section_readable (view : DataView.t) (ns nc ch s : nat) :
  (8 + 2 * ns * nc ≤ length view)%nat → (ch < nc)%nat → (s < ns)%nat →
  is_Some (DataView.getInt16 view (valueOffset ns ch s)).
Proof.
  intros Hlen Hch Hs. apply getInt16_Some. unfold valueOffset. nia.
Qed.

(** On a buffer that holds the whole declared record the decoder returns
    the closed form. *)
Lemma decodePiezoTrace_closed (view : DataView.t) (bt si ns nc : Z) :
  DataView.getUint32 view 0 = Some bt →
  DataView.getUint16 view 4 = Some si →
  DataView.getUint8 view 6 = Some ns →
  DataView.getUint8 view 7 = Some nc →
  (8 + 2 * Z.to_nat ns * Z.to_nat nc ≤ length view)%nat →
  decodePiezoTrace view =
  Some (mkPiezoDecoded
          (map (channelPoints view bt si (Z.to_nat ns)) (seq 0 (Z.to_nat nc)))
          bt si,
        invalidTotal view (Z.to_nat ns) (Z.to_nat nc)).
Proof.
  intros Hbt Hsi Hns Hnc Hlen. unfold decodePiezoTrace.
  rewrite Hbt, Hsi, Hns, Hnc. simpl.
  unfold for_upto. rewrite init_loop_spec. simpl.
  rewrite (channel_loop_spec view bt si (Z.to_nat ns) (Z.to_nat nc) 0 _ []);
    simpl; try done.
  intros ch s Hch Hs. apply (value_section_readable view _ (Z.to_nat nc)); lia.
Qed.

(** ** Little-endian assembly as arithmetic *)

Lemma lor_shiftl_add (a b n : Z) :
  0 ≤ n → 0 ≤ a < 2 ^ n → Z.lor a (Z.shiftl b n) = a + b * 2 ^ n.
Proof.
  intros Hn Ha.
  assert (Hland : Z.land a (Z.shiftl b n) = 0).
  { apply Z.bits_inj'. intros m Hm.
    rewrite Z.land_spec, Z.bits_0.
    destruct (Z.lt_ge_cases m n) as [Hlt|Hge].
    - rewrite Z.shiftl_spec_low by done. apply andb_false_r.
    - rewrite <- (Z.mod_small a (2 ^ n)) by done.
      rewrite Z.mod_pow2_bits_high by lia. reflexivity. }
  rewrite <- Z.lxor_lor by done.
  rewrite <- Z.add_nocarry_lxor by done.
  by rewrite Z.shiftl_mul_pow2.
Qed.

Lemma u8_range (b : byte) : 0 ≤ u8 b < 256.
Proof. destruct b; vm_compute; split; congruence. Qed.

Lemma getUint16_at (view : DataView.t) (off : nat) (b0 b1 : byte) :
  view !! off = Some b0 → view !! (off + 1)%nat = Some b1 →
  DataView.getUint16 view off = Some (u8 b0 + 256 * u8 b1).
Proof.
  intros H0 H1. unfold DataView.getUint16, DataView.byteAt.
  rewrite H0, H1. simpl. fold (u8 b0) (u8 b1).
  pose proof (u8_range b0). rewrite (lor_shiftl_add _ _ 8) by lia.
  f_equal. lia.
Qed.

Lemma getInt16_at (view : DataView.t) (off : nat) (b0 b1 : byte) :
  view !! off = Some b0 → view !! (off + 1)%nat = Some b1 →
  DataView.getInt16 view off = Some (int16_of (u8 b0 + 256 * u8 b1)).
Proof.
  intros H0 H1. unfold DataView.getInt16.
  by rewrite (getUint16_at view off b0 b1).
Qed.

Lemma getUint32_at (view : DataView.t) (off : nat) (b0 b1 b2 b3 : byte) :
  view !! off = Some b0 → view !! (off + 1)%nat = Some b1 →
  view !! (off + 2)%nat = Some b2 → view !! (off + 3)%nat = Some b3 →
  DataView.getUint32 view off =
  Some (u8 b0 + 256 * u8 b1 + 65536 * u8 b2 + 16777216 * u8 b3).
Proof.
  intros H0 H1 H2 H3. unfold DataView.getUint32, DataView.byteAt.
  rewrite H0, H1, H2, H3. simpl.
  fold (u8 b0) (u8 b1) (u8 b2) (u8 b3).
  pose proof (u8_range b0). pose proof (u8_range b1).
  pose proof (u8_range b2). pose proof (u8_range b3).
  replace (Z.shiftl (u8 b3) 24) with (Z.shiftl (Z.shiftl (u8 b3) 8) 16)
    by (rewrite Z.shiftl_shiftl by lia; reflexivity).
  rewrite <- Z.shiftl_lor.
  rewrite (lor_shiftl_add (u8 b0) _ 8), (lor_shiftl_add (u8 b2) _ 8) by lia.
  rewrite (lor_shiftl_add _ _ 16) by lia.
  f_equal. lia.
Qed.

(** ** A successful value loop has read every position *)

Section PiezoLoopBounds.
Variable view : DataView.t.
Variables bt si : Z.

Lemma sampleStep_offset (ch s : nat) (vars vars' : LoopVars) :
  sampleStep view bt si ch s vars = Some vars' →
  offset vars' = (offset vars + 2)%nat ∧ (offset vars' ≤ length view)%nat.
Proof.
  unfold sampleStep. intros H.
  destruct (DataView.getInt16 view (offset vars)) as [raw|] eqn:Hraw;
    simpl in H; [|done].
  assert (offset vars + 2 ≤ length view)%nat as Hin.
  { destruct (decide (offset vars + 2 ≤ length view)%nat); [done|].
    rewrite getInt16_None in Hraw by lia. done. }
  destruct (raw =? -32768); simpl in H.
  - injection H as <-. simpl. lia.
  - destruct (chans vars !! ch); simpl in H; [|done].
    injection H as <-. simpl. lia.
Qed.

Lemma sample_loop_offset (ch count : nat) : ∀ (i : nat) (vars vars' : LoopVars),
  for_from i count (sampleStep view bt si ch) vars = Some vars' →
  offset vars' = (offset vars + 2 * count)%nat ∧
  ((0 < count)%nat → (offset vars' ≤ length view)%nat).
Proof.
  induction count as [|count IH]; intros i vars vars' H; simpl in H.
  - injection H as <-. split; lia.
  - destruct (sampleStep view bt si ch i vars) as [v1|] eqn:Hstep;
      simpl in H; [|done].
    apply sampleStep_offset in Hstep as [Ho1 Hb1].
    apply IH in H as [Ho Hb]. split; [lia|]. intros _.
    destruct count; [|apply Hb; lia].
    rewrite Ho. lia.
Qed.

Lemma channel_loop_offset (ns count : nat) : ∀ (j : nat) (vars vars' : LoopVars),
  for_from j count (λ ch, for_upto ns (sampleStep view bt si ch)) vars =
    Some vars' →
  offset vars' = (offset vars + 2 * ns * count)%nat ∧
  ((0 < ns * count)%nat → (offset vars' ≤ length view)%nat).
Proof.
  induction count as [|count IH]; intros j vars vars' H; simpl in H.
  - injection H as <-. split; lia.
  - destruct (for_upto ns (sampleStep view bt si j) vars) as [v1|] eqn:Hin;
      simpl in H; [|done].
    apply sample_loop_offset in Hin as [Ho1 Hb1].
    apply IH in H as [Ho Hb]. split; [lia|]. intros Hpos.
    destruct (decide (0 < ns * count)%nat) as [Hc|Hc]; [by apply Hb|].
    assert (count = 0%nat) as -> by nia.
    rewrite Ho, Nat.mul_0_r, Nat.add_0_r. apply Hb1. lia.
Qed.

End PiezoLoopBounds.

Lemma decodePiezoTrace_truncated (view : DataView.t) :
  piezoTruncated view → decodePiezoTrace view = None.
Proof.
  intros [Hshort | (n & Hdecl & Hlt)]; unfold decodePiezoTrace.
  - destruct (DataView.getUint32 view 0); simpl; [|done].
    destruct (DataView.getUint16 view 4); simpl; [|done].
    destruct (DataView.getUint8 view 6); simpl; [|done].
    rewrite getUint8_None by lia. done.
  - unfold declaredLength in Hdecl.
    destruct (DataView.getUint32 view 0) as [bt|]; simpl; [|done].
    destruct (DataView.getUint16 view 4) as [si|]; simpl; [|done].
    destruct (DataView.getUint8 view 6) as [ns|]; simpl in *; [|done].
    destruct (DataView.getUint8 view 7) as [nc|] eqn:Hnc; simpl in *; [|done].
    injection Hdecl as <-.
    unfold for_upto. rewrite init_loop_spec. simpl.
    destruct (for_from _ _ _ _) as [vars'|] eqn:Hloop; simpl; [|done].
    apply (channel_loop_offset view bt si (Z.to_nat ns)) in Hloop as [Ho Hb].
    simpl in *. exfalso.
    destruct (decide (0 < Z.to_nat ns * Z.to_nat nc)%nat) as [Hpos|Hz].
    + specialize (Hb Hpos). lia.
    + assert (length view < 8)%nat by nia.
      rewrite getUint8_None in Hnc by lia. done.
Qed.

Lemma decodeTempHumBytes_short (view : DataView.t) :
  (length view < 8)%nat → decodeTempHumBytes view = None.
Proof.
  intros Hshort. unfold decodeTempHumBytes.
  destruct (DataView.getUint32 view 0); simpl; [|done].
  destruct (DataView.getInt16 view 4); simpl; [|done].
  rewrite getUint16_None by lia. done.
Qed.

(** Where every position is readable, the points of a channel are the
    non-sentinel positions in order, one point each. *)
Lemma omap_pointAt_filter (view : DataView.t) (bt si : Z) (ns ch : nat)
    (l : list nat) :
  (∀ s, s ∈ l → is_Some (DataView.getInt16 view (valueOffset ns ch s))) →
  omap (pointAt view bt si ns ch) l =
  map (λ s, mkSample (bt * 1000 + Z.of_nat s * si) (rawAt view ns ch s # 100))
      (List.filter (λ s, negb (rawAt view ns ch s =? -32768)) l).
Proof.
  induction l as [|s l IH]; intros Hrd; [done|].
  destruct (Hrd s ltac:(left)) as [raw Hraw].
  assert (Hr : rawAt view ns ch s = raw) by (unfold rawAt; by rewrite Hraw).
  assert (Hp : pointAt view bt si ns ch s =
               if raw =? -32768 then None
               else Some (mkSample (bt * 1000 + Z.of_nat s * si) (raw # 100)))
    by (unfold pointAt; by rewrite Hraw).
  specialize (IH (λ s' Hs', Hrd s' (list_elem_of_further _ _ _ Hs'))).
  simpl. rewrite Hr, Hp.
  change (list_omap nat Sample (pointAt view bt si ns ch) l)
    with (omap (pointAt view bt si ns ch) l).
  rewrite IH. destruct (raw =? -32768); simpl; [done|]. by rewrite Hr.
Qed.

Lemma isInvalidAt_rawAt (view : DataView.t) (ns ch s : nat) :
  isInvalidAt view ns ch s = (rawAt view ns ch s =? -32768).
Proof.
  unfold isInvalidAt, rawAt.
  by destruct (DataView.getInt16 view (valueOffset ns ch s)).
Qed.

Lemma invalidInChannel_rawAt (view : DataView.t) (ns ch : nat) :
  invalidInChannel view ns ch =
  length (List.filter (λ s, rawAt view ns ch s =? -32768) (seq 0 ns)).
Proof.
  unfold invalidInChannel. f_equal. apply List.filter_ext.
  intros s. apply isInvalidAt_rawAt.
Qed.

(** * Properties of the decoders *)

(** C1 (as stated, refuted): on the record [59 9A 46 67 29 09 85 1A] the
    timestamp field reads 1732680281, and the decoder returns exactly that
    number: neither the field times 1000 nor 1732012345000. *)
Lemma temphum_example_timestamp_not_ms :
  DataView.getUint32 temphum_example 0 = Some 1732680281 ∧
  th_timestamp <$> decodeTempHumBytes temphum_example = Some 1732680281 ∧
  th_timestamp <$> decodeTempHumBytes temphum_example ≠ Some (1732680281 * 1000) ∧
  th_timestamp <$> decodeTempHumBytes temphum_example ≠ Some 1732012345000.
Proof. repeat split; vm_compute; congruence. Qed.

(** C1 (amended): for every 8-byte temp/hum record (followed by any
    bytes) the decoder reads timestamp (u32), temperature_raw (i16) and
    humidity_raw (u16) little-endian in that order and returns
    temperature = temperature_raw/100, humidity = humidity_raw/100 and
    the timestamp field as read, in seconds; the bytes
    [59 9A 46 67 29 09 85 1A] decode to temperature 23.45, humidity 67.89
    and timestamp 1732680281. *)
Theorem decodeTempHum_fields (b0 b1 b2 b3 b4 b5 b6 b7 : byte) (rest : list byte) :
  decodeTempHumBytes (b0 :: b1 :: b2 :: b3 :: b4 :: b5 :: b6 :: b7 :: rest) =
    Some (mkTempHum
            (u8 b0 + 256 * u8 b1 + 65536 * u8 b2 + 16777216 * u8 b3)
            (int16_of (u8 b4 + 256 * u8 b5) # 100)
            ((u8 b6 + 256 * u8 b7) # 100))
  ∧ decodeTempHumBytes temphum_example = Some (mkTempHum 1732680281 23.45 67.89).
Proof.
  split; [|reflexivity].
  unfold decodeTempHumBytes.
  rewrite (getUint32_at _ 0 b0 b1 b2 b3) by reflexivity.
  rewrite (getInt16_at _ 4 b4 b5) by reflexivity.
  rewrite (getUint16_at _ 6 b6 b7) by reflexivity.
  reflexivity.
Qed.

(** C2: on a buffer that holds the record its header declares, the
    decoder returns one sequence per channel, and channel [ch] is built,
    for s = 0, 1, ..., num_samples - 1 in this order, from the int16 at
    byte offset 8 + 2 * (ch * num_samples + s), taken as sample [s] of
    that channel (channel-outer, sample-inner). *)
Theorem piezo_channel_major (view : DataView.t) (bt si : Z) (ns nc : nat) :
  DataView.getUint32 view 0 = Some bt →
  DataView.getUint16 view 4 = Some si →
  DataView.getUint8 view 6 = Some (Z.of_nat ns) →
  DataView.getUint8 view 7 = Some (Z.of_nat nc) →
  (8 + 2 * ns * nc ≤ length view)%nat →
  ∃ r, decodePiezoBytes view = Some r ∧
       length (channels r) = nc ∧
       ∀ ch, (ch < nc)%nat →
         (∀ s, (s < ns)%nat →
            is_Some (DataView.getInt16 view (8 + 2 * (ch * ns + s)))) ∧
         channels r !! ch =
         Some (omap (λ s,
                 raw ← DataView.getInt16 view (8 + 2 * (ch * ns + s));
                 if raw =? -32768 then None
                 else Some (mkSample (bt * 1000 + Z.of_nat s * si) (raw # 100)))
               (seq 0 ns)).
Proof.
  intros Hbt Hsi Hns Hnc Hlen.
  pose proof (decodePiezoTrace_closed view bt si _ _ Hbt Hsi Hns Hnc) as Hdec.
  rewrite !Nat2Z.id in Hdec. specialize (Hdec Hlen).
  eexists. split; [unfold decodePiezoBytes; rewrite Hdec; reflexivity|].
  simpl. split; [by rewrite length_map, length_seq|].
  intros ch Hch. split.
  - intros s Hs. by apply (value_section_readable view ns nc).
  - rewrite list_lookup_fmap, lookup_seq_lt by done. reflexivity.
Qed.

Lemma piezo_channel_major_witness :
  ∃ r, decodePiezoBytes piezo_example = Some r ∧
       length (channels r) = 2%nat ∧
       ∀ ch, (ch < 2)%nat →
         (∀ s, (s < 3)%nat →
            is_Some (DataView.getInt16 piezo_example (8 + 2 * (ch * 3 + s)))) ∧
         channels r !! ch =
         Some (omap (λ s,
                 raw ← DataView.getInt16 piezo_example (8 + 2 * (ch * 3 + s));
                 if raw =? -32768 then None
                 else Some (mkSample (1732012345 * 1000 + Z.of_nat s * 100)
                                     (raw # 100)))
               (seq 0 3)).
Proof.
  apply (piezo_channel_major piezo_example 1732012345 100 3 2);
    [reflexivity | reflexivity | reflexivity | reflexivity | simpl; lia].
Defined.

(** C3: on a buffer that holds the record its header declares, the output
    sequence of every channel consists of exactly one sample for each
    position of that channel whose value is not -32768, in position
    order, with voltage = raw/100 and timestamp = base_timestamp*1000 +
    sample_index*sample_interval_ms; positions holding -32768 yield no
    sample, and the invalid-sample counter ends at the number of such
    positions. *)
Theorem piezo_samples_and_sentinels (view : DataView.t) (bt si : Z) (ns nc : nat) :
  DataView.getUint32 view 0 = Some bt →
  DataView.getUint16 view 4 = Some si →
  DataView.getUint8 view 6 = Some (Z.of_nat ns) →
  DataView.getUint8 view 7 = Some (Z.of_nat nc) →
  (8 + 2 * ns * nc ≤ length view)%nat →
  ∃ r invalid,
    decodePiezoTrace view = Some (r, invalid) ∧
    (∀ ch, (ch < nc)%nat →
       channels r !! ch =
       Some (map (λ s, mkSample (bt * 1000 + Z.of_nat s * si)
                                (rawAt view ns ch s # 100))
                 (List.filter (λ s, negb (rawAt view ns ch s =? -32768))
                              (seq 0 ns)))) ∧
    invalid =
    sum_list (map (λ ch, length (List.filter (λ s, rawAt view ns ch s =? -32768)
                                             (seq 0 ns)))
                  (seq 0 nc)).
Proof.
  intros Hbt Hsi Hns Hnc Hlen.
  pose proof (decodePiezoTrace_closed view bt si _ _ Hbt Hsi Hns Hnc) as Hdec.
  rewrite !Nat2Z.id in Hdec. specialize (Hdec Hlen).
  do 2 eexists. split; [exact Hdec|]. simpl. split.
  - intros ch Hch.
    rewrite list_lookup_fmap, lookup_seq_lt by done. simpl. f_equal.
    apply omap_pointAt_filter. intros s Hs.
    apply elem_of_seq in Hs.
    apply (value_section_readable view ns nc); lia.
  - unfold invalidTotal. f_equal. apply map_ext. intros ch.
    apply invalidInChannel_rawAt.
Qed.

Lemma piezo_samples_and_sentinels_witness :
  ∃ r invalid,
    decodePiezoTrace piezo_example = Some (r, invalid) ∧
    (∀ ch, (ch < 2)%nat →
       channels r !! ch =
       Some (map (λ s, mkSample (1732012345 * 1000 + Z.of_nat s * 100)
                                (rawAt piezo_example 3 ch s # 100))
                 (List.filter (λ s, negb (rawAt piezo_example 3 ch s =? -32768))
                              (seq 0 3)))) ∧
    invalid =
    sum_list (map (λ ch, length (List.filter
                                   (λ s, rawAt piezo_example 3 ch s =? -32768)
                                   (seq 0 3)))
                  (seq 0 2)).
Proof.
  apply (piezo_samples_and_sentinels piezo_example 1732012345 100 3 2);
    [reflexivity | reflexivity | reflexivity | reflexivity | simpl; lia].
Defined.

(** C4: a piezo payload whose bytes are fewer than the 8 of the header, or
    fewer than the 8 + 2*num_samples*num_channels its header declares,
    and a temp/hum payload of fewer than 8 bytes, make the decoder return
    no result ([null]); no sample is produced. *)
Theorem truncated_records_fail `{Platform} (piezoData tempData : jsval)
    (piezoBytes tempBytes : list byte) :
  atob (toStr piezoData) = Some piezoBytes →
  piezoTruncated piezoBytes →
  atob (toStr tempData) = Some tempBytes →
  (length tempBytes < 8)%nat →
  decodePiezoData piezoData = None ∧ decodeTempHumData tempData = None.
Proof.
  intros Hp Htrunc Ht Hshort. split.
  - unfold decodePiezoData, decodePiezoBytes. rewrite Hp. simpl.
    by rewrite decodePiezoTrace_truncated.
  - unfold decodeTempHumData. rewrite Ht. simpl.
    by apply decodeTempHumBytes_short.
Qed.

Lemma truncated_records_fail_witness :
  @decodePiezoData Demo.platform (VStr "OWk8Z2QAAwJkAACA+gCc/wEAAA==") = None ∧
  @decodeTempHumData Demo.platform (VStr "WZpGZykJ") = None.
Proof.
  apply (@truncated_records_fail Demo.platform
           (VStr "OWk8Z2QAAwJkAACA+gCc/wEAAA==") (VStr "WZpGZykJ")
           (take 19 piezo_example) (take 6 temphum_example)).
  - reflexivity.
  - right. exists 20%nat. split; [reflexivity | simpl; lia].
  - reflexivity.
  - simpl; lia.
Defined.

(** * Facts about the state updaters *)

Lemma inWindow_spec (now : Z) (d : Point.t) :
  inWindow now d = true ↔ (inject_Z now - Point.time d <= WINDOW_MS)%Q.
Proof. unfold inWindow. apply Qle_bool_iff. Qed.

Lemma combine_spec (now : Z) (oldArr newPoints : list Point.t) (d : Point.t) :
  In d (combine now oldArr newPoints) ↔
  In d (oldArr ++ newPoints) ∧ (inject_Z now - Point.time d <= WINDOW_MS)%Q.
Proof. unfold combine. rewrite List.filter_In, inWindow_spec. reflexivity. Qed.

Lemma combine_within (now : Z) (oldArr newPoints : list Point.t) :
  Forall (λ d, (inject_Z now - Point.time d <= WINDOW_MS)%Q)
         (combine now oldArr newPoints).
Proof.
  apply List.Forall_forall. intros d Hd. by apply combine_spec in Hd as [_ ?].
Qed.

Section BinaryUpdater.
Variable now : Z.
Variable mapping : list string.
Variable decoded : PiezoDecoded.
Variable prev : gmap string (list Point.t).

#[local] Abbreviation stored := (storedAfter now mapping decoded prev).

Lemma stored_S (n : nat) :
  stored (S n) = storeChannel now mapping decoded prev n (stored n).
Proof. unfold storedAfter. by rewrite seq_S, foldl_app. Qed.

Lemma stored_unmapped (key : string) (n : nat) :
  (∀ i, (i < n)%nat → mapping !! i ≠ Some key) →
  stored n !! key = prev !! key.
Proof.
  induction n as [|n IH]; intros Hne; [done|].
  rewrite stored_S. unfold storeChannel.
  destruct (mapping !! n) as [k|] eqn:Hk;
    [destruct (channels decoded !! n) as [c|]|]; try (apply IH; auto with lia).
  rewrite lookup_insert_ne; [apply IH; auto with lia|].
  intros ->. by apply (Hne n ltac:(lia)).
Qed.

Lemma stored_mapped (key : string) (channel : list Sample) (i n : nat) :
  NoDup mapping → (i < n)%nat →
  mapping !! i = Some key → channels decoded !! i = Some channel →
  stored n !! key =
  Some (combine now (windowOf prev key) (toPoint <$> channel)).
Proof.
  intros Hnd Hi Hk Hc. induction n as [|n IH]; [lia|].
  rewrite stored_S. unfold storeChannel.
  destruct (decide (i = n)) as [->|Hne].
  - rewrite Hk, Hc. apply lookup_insert_eq.
  - destruct (mapping !! n) as [k|] eqn:Hk';
      [destruct (channels decoded !! n) as [c|]|]; try (apply IH; lia).
    rewrite lookup_insert_ne; [apply IH; lia|].
    intros ->. apply Hne. symmetry. by eapply NoDup_lookup.
Qed.

Lemma stored_written (key : string) (i n : nat) :
  (i < n)%nat → mapping !! i = Some key → is_Some (channels decoded !! i) →
  ∃ newPoints,
    stored n !! key = Some (combine now (windowOf prev key) newPoints).
Proof.
  intros Hi Hk [c Hc]. induction n as [|n IH]; [lia|].
  rewrite stored_S. unfold storeChannel.
  destruct (decide (i = n)) as [->|Hne].
  - rewrite Hk, Hc. eexists. apply lookup_insert_eq.
  - destruct (mapping !! n) as [k|] eqn:Hk';
      [destruct (channels decoded !! n) as [c'|]|]; try (apply IH; lia).
    destruct (decide (k = key)) as [->|Hkk].
    + eexists. apply lookup_insert_eq.
    + rewrite lookup_insert_ne by done. apply IH; lia.
Qed.

Lemma stored_cases (key : string) (n : nat) :
  stored n !! key = prev !! key ∨
  ∃ newPoints,
    stored n !! key = Some (combine now (windowOf prev key) newPoints).
Proof.
  induction n as [|n IH]; [by left|].
  rewrite stored_S. unfold storeChannel.
  destruct (mapping !! n) as [k|];
    [destruct (channels decoded !! n) as [c|]|]; try exact IH.
  destruct (decide (k = key)) as [->|Hkk].
  - right. eexists. apply lookup_insert_eq.
  - by rewrite lookup_insert_ne.
Qed.

Lemma storeDecoded_stored :
  storeDecoded now mapping decoded prev =
  stored (Nat.min (length mapping) (length (channels decoded))).
Proof. reflexivity. Qed.

End BinaryUpdater.

Section LegacyUpdater.
Context `{Platform}.
Variable offset : Q.
Variable now : Z.
Variable mapping : list string.
Variable data : jsval.
Variable prev : gmap string (list Point.t).

Lemma storeReadings_unmapped (key : string) (i : nat)
    (acc updated : gmap string (list Point.t)) :
  storeReadings offset now mapping data prev i acc = Some updated →
  mapping !! i ≠ Some key →
  updated !! key = acc !! key.
Proof.
  unfold storeReadings. intros Hstep Hne.
  destruct (mapping !! i) as [k|]; [|by injection Hstep as <-].
  destruct (get_prop data (sensorName i)) as [raw|]; simpl in Hstep; [|done].
  destruct (mapM _ _) as [newPoints|]; simpl in Hstep; [|done].
  injection Hstep as <-. apply lookup_insert_ne. by intros ->.
Qed.

Lemma storeReadings_mapped (key : string) (i : nat)
    (acc updated : gmap string (list Point.t)) :
  storeReadings offset now mapping data prev i acc = Some updated →
  mapping !! i = Some key →
  ∃ raw newPoints,
    get_prop data (sensorName i) = Some raw ∧
    mapM (readingPoint offset now) (readingsOf raw) = Some newPoints ∧
    updated !! key = Some (combine now (windowOf prev key) newPoints).
Proof.
  unfold storeReadings. intros Hstep Hk. rewrite Hk in Hstep.
  destruct (get_prop data (sensorName i)) as [raw|]; simpl in Hstep; [|done].
  destruct (mapM _ _) as [newPoints|] eqn:Hpts; simpl in Hstep; [|done].
  injection Hstep as <-. exists raw, newPoints.
  split; [done|]. split; [done|]. apply lookup_insert_eq.
Qed.

Lemma legacy_loop_unmapped (key : string) (count : nat) :
  ∀ (i : nat) (acc updated : gmap string (list Point.t)),
  for_from i count (storeReadings offset now mapping data prev) acc =
    Some updated →
  (∀ j, (i ≤ j < i + count)%nat → mapping !! j ≠ Some key) →
  updated !! key = acc !! key.
Proof.
  induction count as [|count IH]; intros i acc updated Hloop Hne; simpl in Hloop.
  - by injection Hloop as <-.
  - destruct (storeReadings offset now mapping data prev i acc) as [acc1|]
      eqn:Hstep; simpl in Hloop; [|done].
    rewrite (IH _ _ _ Hloop) by (intros j Hj; apply Hne; lia).
    eapply storeReadings_unmapped; [done|]. apply Hne. lia.
Qed.

Lemma legacy_loop_mapped (key : string) (j count : nat) :
  NoDup mapping →
  ∀ (i : nat) (acc updated : gmap string (list Point.t)),
  for_from i count (storeReadings offset now mapping data prev) acc =
    Some updated →
  (i ≤ j < i + count)%nat →
  mapping !! j = Some key →
  ∃ raw newPoints,
    get_prop data (sensorName j) = Some raw ∧
    mapM (readingPoint offset now) (readingsOf raw) = Some newPoints ∧
    updated !! key = Some (combine now (windowOf prev key) newPoints).
Proof.
  intros Hnd. induction count as [|count IH];
    intros i acc updated Hloop Hj Hk; simpl in Hloop; [lia|].
  destruct (storeReadings offset now mapping data prev i acc) as [acc1|]
    eqn:Hstep; simpl in Hloop; [|done].
  destruct (decide (j = i)) as [->|Hne].
  - destruct (storeReadings_mapped key i acc acc1 Hstep Hk)
      as (raw & newPoints & Hraw & Hpts & Hlk).
    exists raw, newPoints. split; [done|]. split; [done|].
    rewrite (legacy_loop_unmapped key count _ _ _ Hloop); [done|].
    intros j' Hj' Hk'. assert (j' = i) by (by eapply NoDup_lookup). lia.
  - apply (IH _ _ _ Hloop); [lia | done].
Qed.

#[local] Abbreviation appendedOrKept := (appendedOrKept now prev).

Lemma storeReadings_appendedOrKept (key : string) (i : nat)
    (acc updated : gmap string (list Point.t)) :
  storeReadings offset now mapping data prev i acc = Some updated →
  appendedOrKept key acc → appendedOrKept key updated.
Proof.
  intros Hstep Hacc.
  destruct (decide (mapping !! i = Some key)) as [Hk|Hk].
  - destruct (storeReadings_mapped key i acc updated Hstep Hk)
      as (raw & newPoints & _ & _ & Hlk).
    right. eauto.
  - unfold appendedOrKept.
    by rewrite (storeReadings_unmapped key i acc updated Hstep Hk).
Qed.

Lemma legacy_loop_appendedOrKept (key : string) (count : nat) :
  ∀ (i : nat) (acc updated : gmap string (list Point.t)),
  for_from i count (storeReadings offset now mapping data prev) acc =
    Some updated →
  appendedOrKept key acc → appendedOrKept key updated.
Proof.
  induction count as [|count IH]; intros i acc updated Hloop Hacc;
    simpl in Hloop.
  - by injection Hloop as <-.
  - destruct (storeReadings offset now mapping data prev i acc) as [acc1|]
      eqn:Hstep; simpl in Hloop; [|done].
    eapply IH; [exact Hloop|]. by eapply storeReadings_appendedOrKept.
Qed.

Lemma legacy_loop_written (key : string) (j count : nat) :
  ∀ (i : nat) (acc updated : gmap string (list Point.t)),
  for_from i count (storeReadings offset now mapping data prev) acc =
    Some updated →
  (i ≤ j < i + count)%nat →
  mapping !! j = Some key →
  ∃ newPoints, updated !! key = Some (combine now (windowOf prev key) newPoints).
Proof.
  induction count as [|count IH];
    intros i acc updated Hloop Hj Hk; simpl in Hloop; [lia|].
  destruct (storeReadings offset now mapping data prev i acc) as [acc1|]
    eqn:Hstep; simpl in Hloop; [|done].
  destruct (decide (j = i)) as [->|Hne]; [|apply (IH _ _ _ Hloop); [lia|done]].
  destruct (storeReadings_mapped key i acc acc1 Hstep Hk)
    as (raw & newPoints & _ & _ & Hlk).
  clear IH Hstep Hj. revert Hloop Hlk. generalize (S i). revert acc1 newPoints.
  induction count as [|count IH]; intros acc1 newPoints i' Hloop Hlk;
    simpl in Hloop.
  - injection Hloop as <-. eauto.
  - destruct (storeReadings offset now mapping data prev i' acc1) as [acc2|]
      eqn:Hstep; simpl in Hloop; [|done].
    destruct (decide (mapping !! i' = Some key)) as [Hk'|Hk'].
    + destruct (storeReadings_mapped key i' acc1 acc2 Hstep Hk')
        as (raw' & newPoints' & _ & _ & Hlk').
      by eapply IH.
    + eapply IH; [exact Hloop|].
      by rewrite (storeReadings_unmapped key i' acc1 acc2 Hstep Hk').
Qed.

Lemma storeLegacy_unmapped (key : string)
    (updated : gmap string (list Point.t)) :
  storeLegacy offset now mapping data prev = Some updated →
  key ∉ mapping →
  updated !! key = prev !! key.
Proof.
  intros Hloop Hnot. eapply legacy_loop_unmapped; [exact Hloop|].
  intros j _ Hj. apply Hnot. by eapply list_elem_of_lookup_2.
Qed.

Lemma storeLegacy_mapped (key : string) (j : nat)
    (updated : gmap string (list Point.t)) :
  NoDup mapping →
  storeLegacy offset now mapping data prev = Some updated →
  mapping !! j = Some key →
  ∃ raw newPoints,
    get_prop data (sensorName j) = Some raw ∧
    mapM (readingPoint offset now) (readingsOf raw) = Some newPoints ∧
    updated !! key = Some (combine now (windowOf prev key) newPoints).
Proof.
  intros Hnd Hloop Hk. eapply legacy_loop_mapped; [done | exact Hloop | | done].
  apply lookup_lt_Some in Hk. lia.
Qed.

End LegacyUpdater.

(** * Facts about the offset estimate *)

Lemma updateOffset_cases (count : nat) :
  ∀ (i : nat) (data : jsval) (browserNow : Z) (st st' : State),
  updateOffset i count data browserNow st = Some st' →
  st' = st ∨ ∃ offsetSample, st' = observeOffset offsetSample st.
Proof.
  induction count as [|count IH]; intros i data browserNow st st' Hloop;
    simpl in Hloop.
  - left. by injection Hloop as <-.
  - destruct (get_prop data (sensorName i)) as [d|]; simpl in Hloop; [|done].
    destruct (deviceTs (firstOrSelf d)) as [ts|].
    + right. injection Hloop as <-. eauto.
    + by eapply IH.
Qed.

Lemma updateOffset_frame (count i : nat) (data : jsval) (browserNow : Z)
    (st st' : State) :
  updateOffset i count data browserNow st = Some st' →
  piezo st' = piezo st ∧ temp1 st' = temp1 st ∧ hum1 st' = hum1 st ∧
  temp2 st' = temp2 st ∧ hum2 st' = hum2 st.
Proof.
  intros Hloop.
  destruct (updateOffset_cases _ _ _ _ _ _ Hloop) as [->|[x ->]]; done.
Qed.

(** * The outcomes of the piezo branch *)

Section PiezoBranch.
Context `{Platform}.
#[local] Arguments updateOffset : simpl never.

Lemma piezoTry_cases (decoderMode : DecoderMode) (browserNow now : Z)
    (mapping : list string) (message : string) (st : State)
    (result : State * Status) :
  piezoTry decoderMode browserNow now mapping message st = Some result →
  result = (st, Completed) ∨
  (∃ decoded, result = (setPiezo (storeDecoded now mapping decoded) st, Completed)) ∨
  (∃ data st1,
     updateOffset 0 4 data browserNow st = Some st1 ∧
     (result = (st1, UpdaterThrew) ∨
      ∃ updated,
        storeLegacy (offsetRef st1) now mapping data (piezo st1) = Some updated ∧
        result = (setPiezo (λ _, updated) st1, Completed))).
Proof.
  unfold piezoTry. intros Htry.
  destruct (JSON_parse message) as [data|]; simpl in Htry; [|done].
  destruct (useBase64 decoderMode data) as [[|]|]; simpl in Htry; [| |done].
  - destruct (get_prop data "base64_sensordata") as [b|]; simpl in Htry; [|done].
    destruct (decodePiezoData b) as [decoded|]; injection Htry as <-; eauto.
  - destruct (updateOffset 0 4 data browserNow st) as [st1|] eqn:Hoff;
      simpl in Htry; [|done].
    right; right. exists data, st1. split; [done|].
    destruct (storeLegacy _ _ _ _ _) as [updated|] eqn:Hst;
      injection Htry as <-; eauto.
Qed.

End PiezoBranch.

Lemma TOPIC_MAP_lookup (topic : string) (mapping : list string) :
  TOPIC_MAP !! topic = Some mapping →
  topic = "iot/piezo" ∧ mapping = ["A1"; "B1"; "C1"; "A2"].
Proof.
  unfold TOPIC_MAP. intros Hlk.
  apply lookup_singleton_Some in Hlk as [<- <-]. done.
Qed.

Lemma mapping_NoDup : NoDup ["A1"; "B1"; "C1"; "A2"].
Proof. apply NoDup_ListNoDup. repeat constructor; simpl; intuition congruence. Qed.

(** * Facts about the bounded sequence of offset samples *)

Lemma foldl_Qplus (l : list Q) (a : Q) :
  (foldl Qplus a l == a + Qsum l)%Q.
Proof.
  revert a. induction l as [|x l IH]; intros a; simpl.
  - ring.
  - rewrite IH. unfold Qsum. simpl. ring.
Qed.

Lemma observeOffset_mean (x : Q) (st : State) :
  (offsetRef (observeOffset x st) == mean (offsetSamples (observeOffset x st)))%Q.
Proof.
  unfold observeOffset, mean. simpl.
  rewrite foldl_Qplus. apply Qdiv_comp; [ring | reflexivity].
Qed.

Lemma observeOffset_samples (x : Q) (st : State) :
  (length (offsetSamples st) ≤ OFFSET_SAMPLE_SIZE)%nat →
  offsetSamples (observeOffset x st) =
  drop (length (offsetSamples st) + 1 - OFFSET_SAMPLE_SIZE)
       (offsetSamples st ++ [x]).
Proof.
  intros Hlen. unfold observeOffset. simpl.
  rewrite length_app. simpl.
  destruct (Nat.ltb_spec OFFSET_SAMPLE_SIZE (length (offsetSamples st) + 1)).
  - replace (length (offsetSamples st) + 1 - OFFSET_SAMPLE_SIZE)%nat
      with 1%nat by lia.
    by destruct (offsetSamples st ++ [x]).
  - replace (length (offsetSamples st) + 1 - OFFSET_SAMPLE_SIZE)%nat
      with 0%nat by lia.
    reflexivity.
Qed.

Lemma observeOffset_nonempty (x : Q) (st : State) :
  offsetSamples (observeOffset x st) ≠ [].
Proof.
  unfold observeOffset. simpl. rewrite length_app. simpl.
  destruct (offsetSamples st) as [|y [|z l]]; simpl; try done.
  destruct (_ <? _)%nat; [|done]. by destruct l.
Qed.

Lemma observeOffset_bound (x : Q) (st : State) :
  (length (offsetSamples st) ≤ OFFSET_SAMPLE_SIZE)%nat →
  (length (offsetSamples (observeOffset x st)) ≤ OFFSET_SAMPLE_SIZE)%nat.
Proof.
  intros Hlen. rewrite observeOffset_samples by done.
  rewrite length_drop, length_app. simpl. lia.
Qed.

Lemma observeAll_snoc (xs : list Q) (x : Q) (st : State) :
  observeAll (xs ++ [x]) st = observeOffset x (observeAll xs st).
Proof. unfold observeAll. by rewrite foldl_app. Qed.

Lemma observeAll_samples (xs : list Q) (st : State) :
  offsetSamples st = [] →
  offsetSamples (observeAll xs st) = drop (length xs - OFFSET_SAMPLE_SIZE) xs.
Proof.
  intros Hempty. induction xs as [|x xs IH] using rev_ind.
  - by rewrite drop_nil.
  - rewrite observeAll_snoc.
    rewrite observeOffset_samples
      by (rewrite IH, length_drop; lia).
    rewrite IH, length_drop, length_app. simpl.
    destruct (decide (length xs ≤ OFFSET_SAMPLE_SIZE)%nat) as [Hle|Hgt].
    + replace (length xs - OFFSET_SAMPLE_SIZE)%nat with 0%nat by lia.
      rewrite drop_0. f_equal. lia.
    + rewrite <- drop_app_le by lia. rewrite drop_drop. f_equal. lia.
Qed.

Lemma observeOffset_estimatorOK (x : Q) (st : State) :
  estimatorOK st → estimatorOK (observeOffset x st).
Proof.
  intros (Hlen & _ & _). split; [by apply observeOffset_bound|]. split.
  - intros Hnil. by apply observeOffset_nonempty in Hnil.
  - intros _. apply observeOffset_mean.
Qed.

Section OffsetOfHandler.
Context `{Platform}.
#[local] Arguments updateOffset : simpl never.

Lemma tempLegacy_offset (data : jsval) (st : State) :
  let st' := fst (tempLegacy data st) in
  piezo st' = piezo st ∧ temp2 st' = temp2 st ∧ hum2 st' = hum2 st ∧
  offsetRef st' = offsetRef st ∧ offsetSamples st' = offsetSamples st.
Proof.
  unfold tempLegacy.
  destruct (get_prop data "Temperature" ≫= _) as [t|]; [|done].
  by destruct (get_prop data "Humidity" ≫= _) as [h|].
Qed.

Lemma tempTry_offset (decoderMode : DecoderMode) (message : string)
    (st : State) :
  let st' := fst (tempTry decoderMode message st) in
  piezo st' = piezo st ∧ temp2 st' = temp2 st ∧ hum2 st' = hum2 st ∧
  offsetRef st' = offsetRef st ∧ offsetSamples st' = offsetSamples st.
Proof.
  unfold tempTry.
  destruct (JSON_parse message) as [data|]; [|done].
  destruct (useBase64 decoderMode data) as [[|]|]; [| |done].
  - destruct (get_prop data "base64_sensordata") as [b|]; [|done].
    by destruct (decodeTempHumData b).
  - apply tempLegacy_offset.
Qed.

Lemma handleMessage_offset_cases (decoderMode : DecoderMode)
    (browserNow now : Z) (topic message : string) (st : State) :
  let st' := fst (handleMessage decoderMode browserNow now topic message st) in
  (offsetRef st' = offsetRef st ∧ offsetSamples st' = offsetSamples st) ∨
  ∃ x, offsetRef st' = offsetRef (observeOffset x st) ∧
       offsetSamples st' = offsetSamples (observeOffset x st).
Proof.
  unfold handleMessage.
  destruct (TOPIC_MAP !! topic) as [mapping|].
  - destruct (piezoTry _ _ _ _ _ _) as [result|] eqn:Htry; [|by left].
    destruct (piezoTry_cases _ _ _ _ _ _ _ Htry)
      as [-> | [[decoded ->] | (data & st1 & Hoff & Hres)]]; simpl;
      [by left | by left |].
    assert (offsetRef (fst result) = offsetRef st1 ∧
            offsetSamples (fst result) = offsetSamples st1) as [-> ->]
      by (destruct Hres as [-> | (updated & _ & ->)]; done).
    destruct (updateOffset_cases _ _ _ _ _ _ Hoff) as [-> | [x ->]];
      [by left | right; eauto].
  - destruct (String.eqb topic "iot/temp"); [|by left].
    destruct (tempTry_offset decoderMode message st) as (_ & _ & _ & Hr & Hs).
    by left.
Qed.

Lemma deliver_estimatorOK (st : State) (d : Delivery) :
  estimatorOK st → estimatorOK (deliver st d).
Proof.
  intros Hok. unfold deliver.
  destruct (handleMessage_offset_cases (d_mode d) (d_browserNow d) (d_now d)
              (d_topic d) (d_message d) st) as [[Hr Hs] | (x & Hr & Hs)];
    unfold estimatorOK; rewrite Hr, Hs; [done|].
  by apply observeOffset_estimatorOK.
Qed.

Lemma processAll_snoc (ds : list Delivery) (d : Delivery) (st : State) :
  processAll (ds ++ [d]) st = deliver (processAll ds st) d.
Proof. unfold processAll. by rewrite foldl_app. Qed.

Lemma processAll_estimatorOK (ds : list Delivery) (st : State) :
  estimatorOK st → estimatorOK (processAll ds st).
Proof.
  intros Hok. induction ds as [|d ds IH] using rev_ind; [done|].
  rewrite processAll_snoc. by apply deliver_estimatorOK.
Qed.

Lemma legacy_first_sensor_observed (browserNow now : Z)
    (topic message : string) (mapping : list string) (st : State)
    (data d : jsval) (ts : Q) :
  TOPIC_MAP !! topic = Some mapping →
  JSON_parse message = Some data →
  get_prop data "Sensor1" = Some d →
  deviceTs (firstOrSelf d) = Some ts →
  let st' := fst (handleMessage original browserNow now topic message st) in
  offsetRef st' = offsetRef (observeOffset (ts - inject_Z browserNow) st) ∧
  offsetSamples st' = offsetSamples (observeOffset (ts - inject_Z browserNow) st).
Proof.
  intros Hmap Hparse Hd Hts. unfold handleMessage, piezoTry.
  rewrite Hmap, Hparse. simpl.
  change (updateOffset 0 4 data browserNow st)
    with (get_prop data "Sensor1" ≫= λ d,
            match deviceTs (firstOrSelf d) with
            | Some ts => Some (observeOffset (ts - inject_Z browserNow) st)
            | None => updateOffset 1 3 data browserNow st
            end).
  rewrite Hd. simpl. rewrite Hts. simpl.
  by destruct (storeLegacy _ _ _ _ _).
Qed.

End OffsetOfHandler.

(** * Facts about legacy readings *)

Lemma get_prop_readable (x : jsval) (k : string) :
  isNullish x = false → ∃ v, get_prop x k = Some v.
Proof. destruct x; simpl; intros Hx; try done; eauto. Qed.

Lemma get_prop_nullish (x : jsval) (k : string) :
  isNullish x = true → get_prop x k = None.
Proof. by destruct x. Qed.

Lemma slotValue_get (data : jsval) (i : nat) :
  isNullish data = false → get_prop data (sensorName i) = Some (slotValue data i).
Proof.
  intros Hd. unfold slotValue.
  by destruct (get_prop_readable data (sensorName i) Hd) as [v ->].
Qed.

Lemma for_from_is_Some {V : Type} (body : nat → V → option V) (ok : nat → Prop)
    (count : nat) :
  ∀ (i : nat) (vars : V),
  (∀ j v, (i ≤ j < i + count)%nat → is_Some (body j v) ↔ ok j) →
  is_Some (for_from i count body vars) ↔ ∀ j, (i ≤ j < i + count)%nat → ok j.
Proof.
  induction count as [|count IH]; intros i vars Hbody; simpl.
  - split; [intros _ j Hj; lia | eauto].
  - split.
    + intros Hsome j Hj.
      destruct (body i vars) as [v1|] eqn:Hstep; simpl in Hsome;
        [|by destruct Hsome].
      destruct (decide (j = i)) as [->|Hne].
      * apply (Hbody i vars); [lia|]. rewrite Hstep. eauto.
      * eapply (IH (S i) v1); [|exact Hsome|lia].
        intros j' v Hj'. apply Hbody. lia.
    + intros Hok.
      destruct (proj2 (Hbody i vars ltac:(lia)) (Hok i ltac:(lia)))
        as [v1 ->]. simpl.
      apply IH; [intros j' v Hj'; apply Hbody; lia|].
      intros j Hj. apply Hok. lia.
Qed.

Lemma updateOffset_S (i count : nat) (data : jsval) (browserNow : Z)
    (st : State) :
  updateOffset i (S count) data browserNow st =
  get_prop data (sensorName i) ≫= λ d,
    match deviceTs (firstOrSelf d) with
    | Some ts => Some (observeOffset (ts - inject_Z browserNow) st)
    | None => updateOffset (S i) count data browserNow st
    end.
Proof. reflexivity. Qed.

Section LegacyReadings.
Context `{Platform}.
#[local] Arguments updateOffset : simpl never.




Lemma ToNumber_throws (v : jsval) :
  ToNumber v = None ↔ conversionThrows v = true.
Proof.
  destruct v; simpl; try (split; discriminate).
  - by destruct (existsb conversionThrows elems).
  - by destruct (assoc "toString" props).
Qed.

Lemma NumberOrZero_is_Some (v : jsval) :
  is_Some (NumberOrZero v) ↔ conversionThrows v = false.
Proof.
  unfold NumberOrZero. pose proof (ToNumber_throws v) as Hthrows.
  destruct (ToNumber v) as [n|]; simpl.
  - split; [|eauto]. intros _. destruct (conversionThrows v); [|done].
    discriminate (proj2 Hthrows eq_refl).
  - rewrite (proj1 Hthrows eq_refl). split; [by intros [? [=]] | done].
Qed.

Lemma readingPoint_is_Some (offset : Q) (now : Z) (obj : jsval) :
  is_Some (readingPoint offset now obj) ↔ readingConverts obj = true.
Proof.
  unfold readingPoint, readingConverts.
  destruct (isNullish obj) eqn:Hn.
  - rewrite (get_prop_nullish obj "ts" Hn), (get_prop_nullish obj "v" Hn).
    simpl. split; [by intros [? [=]] | done].
  - destruct (get_prop_readable obj "ts" Hn) as [ts ->].
    destruct (get_prop_readable obj "v" Hn) as [v ->]. simpl.
    pose proof (NumberOrZero_is_Some v) as Hv.
    destruct (NumberOrZero v) as [value|]; simpl.
    + rewrite (proj1 Hv) by eauto. split; [done | eauto].
    + destruct (conversionThrows v); simpl; [split; [by intros [? [=]] | done]|].
      by destruct (proj2 Hv eq_refl) as [? [=]].
Qed.

Lemma storeReadings_is_Some (offset : Q) (now : Z) (mapping : list string)
    (data : jsval) (prev acc : gmap string (list Point.t)) (j : nat) :
  isNullish data = false → (j < length mapping)%nat →
  is_Some (storeReadings offset now mapping data prev j acc) ↔
  slotReadable data j = true.
Proof.
  intros Hd Hj. unfold storeReadings, slotReadable.
  destruct (lookup_lt_is_Some_2 mapping j Hj) as [key ->].
  rewrite (slotValue_get data j Hd). simpl.
  rewrite forallb_forall. split.
  - intros Hsome obj Hobj.
    destruct (mapM _ _) as [newPoints|] eqn:Hpts; [|by destruct Hsome].
    assert (Hall : is_Some (mapM (readingPoint offset now)
                              (readingsOf (slotValue data j))))
      by (rewrite Hpts; eauto).
    apply mapM_is_Some in Hall. rewrite List.Forall_forall in Hall.
    specialize (Hall obj Hobj). simpl in Hall.
    by apply readingPoint_is_Some in Hall.
  - intros Hall.
    assert (Hpts : is_Some (mapM (readingPoint offset now)
                              (readingsOf (slotValue data j)))).
    { apply mapM_is_Some, List.Forall_forall. intros obj Hobj. simpl.
      apply readingPoint_is_Some. by apply Hall. }
    destruct Hpts as [newPoints ->]. simpl. eauto.
Qed.

Lemma storeLegacy_is_Some (offset : Q) (now : Z) (data : jsval)
    (prev : gmap string (list Point.t)) :
  isNullish data = false →
  is_Some (storeLegacy offset now ["A1"; "B1"; "C1"; "A2"] data prev) ↔
  readingsConvert data = true.
Proof.
  intros Hd. unfold storeLegacy, for_upto, readingsConvert.
  rewrite (for_from_is_Some _ (λ j, slotReadable data j = true)).
  - rewrite forallb_forall. split.
    + intros Hok j Hj. apply in_seq in Hj. apply Hok. simpl in *. lia.
    + intros Hok j Hj. apply Hok, in_seq. simpl in *. lia.
  - intros j v Hj. apply storeReadings_is_Some; [done | simpl in *; lia].
Qed.

Lemma legacy_completed (browserNow now : Z) (topic message : string)
    (mapping : list string) (st st' : State) (data : jsval) :
  TOPIC_MAP !! topic = Some mapping →
  JSON_parse message = Some data →
  handleMessage original browserNow now topic message st = (st', Completed) →
  ∃ st1 updated,
    updateOffset 0 4 data browserNow st = Some st1 ∧
    storeLegacy (offsetRef st1) now mapping data (piezo st) = Some updated ∧
    st' = setPiezo (λ _, updated) st1.
Proof.
  intros Hmap Hparse. unfold handleMessage, piezoTry.
  rewrite Hmap, Hparse. simpl.
  destruct (updateOffset 0 4 data browserNow st) as [st1|] eqn:Hoff;
    simpl; [|done].
  destruct (updateOffset_frame _ _ _ _ _ _ Hoff) as (Hpz & _).
  rewrite Hpz.
  destruct (storeLegacy _ _ _ _ _) as [updated|] eqn:Hst; [|done].
  intros [= <-]. eauto.
Qed.

End LegacyReadings.

(** * Facts about routing in binary mode *)

Lemma storedAfter_take (now : Z) (mapping : list string) (decoded : PiezoDecoded)
    (prev : gmap string (list Point.t)) (n : nat) :
  (n ≤ length mapping)%nat →
  storedAfter now mapping
    (mkPiezoDecoded (take (length mapping) (channels decoded))
                    (baseTimestamp decoded) (sampleIntervalMs decoded))
    prev n =
  storedAfter now mapping decoded prev n.
Proof.
  induction n as [|n IH]; intros Hn; [done|].
  rewrite !stored_S, IH by lia. unfold storeChannel. simpl.
  by rewrite lookup_take_lt by lia.
Qed.

Lemma storeDecoded_take (now : Z) (mapping : list string) (decoded : PiezoDecoded)
    (prev : gmap string (list Point.t)) :
  storeDecoded now mapping
    (mkPiezoDecoded (take (length mapping) (channels decoded))
                    (baseTimestamp decoded) (sampleIntervalMs decoded))
    prev =
  storeDecoded now mapping decoded prev.
Proof.
  rewrite !storeDecoded_stored. simpl. rewrite length_take.
  replace (length mapping `min` (length mapping `min` length (channels decoded)))%nat
    with (length mapping `min` length (channels decoded))%nat by lia.
  apply storedAfter_take. lia.
Qed.

(** * Properties of the message handler *)

Lemma handleMessage_piezo_window `{Platform} (decoderMode : DecoderMode)
    (browserNow now : Z) (topic message : string) (mapping : list string)
    (st : State) (key : string) :
  TOPIC_MAP !! topic = Some mapping →
  appendedOrKept now (piezo st) key
    (piezo (fst (handleMessage decoderMode browserNow now topic message st))).
Proof.
  intros Hmap. unfold handleMessage. rewrite Hmap.
  destruct (piezoTry _ _ _ _ _ _) as [result|] eqn:Htry; [|by left].
  destruct (piezoTry_cases _ _ _ _ _ _ _ Htry)
    as [-> | [[decoded ->] | (data & st1 & Hoff & Hres)]]; simpl.
  - by left.
  - rewrite storeDecoded_stored. apply stored_cases.
  - destruct (updateOffset_frame _ _ _ _ _ _ Hoff) as (Hpz & _).
    destruct Hres as [-> | (updated & Hst & ->)]; simpl.
    + left. by rewrite Hpz.
    + rewrite Hpz in Hst.
      eapply legacy_loop_appendedOrKept; [exact Hst | by left].
Qed.

(** C5: after an append to the window of a channel, in binary mode (the
    loop of [storeDecoded]) and in legacy mode (the loop of
    [storeLegacy]), the stored sequence of that channel is the old
    sequence followed by the new points with every element older than
    WINDOW_MS = 20000 ms removed: each stored element satisfies
    now - time <= WINDOW_MS, and an element of the old or of the new
    points is stored exactly when it satisfies it. A message on a mapped
    topic leaves each window either as it was or in this form. *)
Theorem appended_window_within `{Platform} (now : Z)
    (prev : gmap string (list Point.t)) (mapping : list string)
    (i : nat) (key : string) :
  mapping !! i = Some key →
  (∀ decoded, is_Some (channels decoded !! i) →
     ∃ newPoints,
       storeDecoded now mapping decoded prev !! key =
         Some (combine now (windowOf prev key) newPoints)) ∧
  (∀ offset data updated,
     storeLegacy offset now mapping data prev = Some updated →
     ∃ newPoints,
       updated !! key = Some (combine now (windowOf prev key) newPoints)) ∧
  (∀ oldArr newPoints,
     Forall (withinWindow now) (combine now oldArr newPoints) ∧
     ∀ d, In d (combine now oldArr newPoints) ↔
          In d (oldArr ++ newPoints) ∧ withinWindow now d) ∧
  (∀ d, withinWindow now d ↔ (inject_Z now - Point.time d <= 20000)%Q) ∧
  (∀ decoderMode browserNow topic message st,
     TOPIC_MAP !! topic = Some mapping →
     appendedOrKept now (piezo st) key
       (piezo (fst (handleMessage decoderMode browserNow now topic message st)))).
Proof.
  intros Hk. split; [|split; [|split; [|split]]].
  - intros decoded Hc. rewrite storeDecoded_stored.
    apply (stored_written now mapping decoded prev key i); [|done..].
    apply lookup_lt_Some in Hk. destruct Hc as [c Hc].
    apply lookup_lt_Some in Hc. lia.
  - intros offset data updated Hst.
    eapply legacy_loop_written; [exact Hst| |exact Hk].
    apply lookup_lt_Some in Hk. lia.
  - intros oldArr newPoints. split; [apply combine_within|].
    intros d. apply combine_spec.
  - reflexivity.
  - intros. by eapply handleMessage_piezo_window.
Qed.

Lemma appended_window_within_witness :
  (∀ decoded, is_Some (channels decoded !! 0%nat) →
     ∃ newPoints,
       storeDecoded 1732012346000 ["A1"; "B1"; "C1"; "A2"] decoded makeEmptyState
         !! "A1" =
         Some (combine 1732012346000 (windowOf makeEmptyState "A1") newPoints)) ∧
  (∀ offset data updated,
     @storeLegacy Demo.platform offset 1732012346000 ["A1"; "B1"; "C1"; "A2"]
       data makeEmptyState = Some updated →
     ∃ newPoints,
       updated !! "A1" =
         Some (combine 1732012346000 (windowOf makeEmptyState "A1") newPoints)) ∧
  (∀ oldArr newPoints,
     Forall (withinWindow 1732012346000) (combine 1732012346000 oldArr newPoints) ∧
     ∀ d, In d (combine 1732012346000 oldArr newPoints) ↔
          In d (oldArr ++ newPoints) ∧ withinWindow 1732012346000 d) ∧
  (∀ d, withinWindow 1732012346000 d ↔
        (inject_Z 1732012346000 - Point.time d <= 20000)%Q) ∧
  (∀ decoderMode browserNow topic message st,
     TOPIC_MAP !! topic = Some ["A1"; "B1"; "C1"; "A2"] →
     appendedOrKept 1732012346000 (piezo st) "A1"
       (piezo (fst (@handleMessage Demo.platform decoderMode browserNow
                      1732012346000 topic message st)))).
Proof.
  apply (@appended_window_within Demo.platform 1732012346000 makeEmptyState
           ["A1"; "B1"; "C1"; "A2"] 0 "A1").
  reflexivity.
Defined.

(** C6: the estimator keeps the last 20 observed offsets (a 21st sample
    evicts the oldest), its estimate is 0 before the first observation and
    the arithmetic mean of the kept samples afterwards; after [100, 200,
    300] the estimate is 200, and after 25 observations the last 20 make
    the mean. The handler keeps this along every run, and in legacy mode
    observes ts - browserNow of the first sensor slot with a numeric ts. *)
Theorem offset_estimator `{Platform} :
  (∀ xs,
     let st := observeAll xs initialState in
     offsetSamples st = drop (length xs - 20) xs ∧
     (length (offsetSamples st) ≤ 20)%nat ∧
     (xs = [] → offsetRef st = 0%Q) ∧
     (xs ≠ [] → (offsetRef st == mean (drop (length xs - 20) xs))%Q)) ∧
  (∀ x st, length (offsetSamples st) = 20%nat →
     offsetSamples (observeOffset x st) = tail (offsetSamples st) ++ [x]) ∧
  (offsetRef (observeAll [100; 200; 300] initialState) == 200)%Q ∧
  (∀ xs, length xs = 25%nat →
     let st := observeAll xs initialState in
     offsetSamples st = drop 5 xs ∧ (offsetRef st == mean (drop 5 xs))%Q) ∧
  (∀ ds, estimatorOK (processAll ds initialState)) ∧
  (∀ browserNow now topic message mapping st data d ts,
     TOPIC_MAP !! topic = Some mapping →
     JSON_parse message = Some data →
     get_prop data "Sensor1" = Some d →
     deviceTs (firstOrSelf d) = Some ts →
     let st' := fst (handleMessage original browserNow now topic message st) in
     offsetRef st' = offsetRef (observeOffset (ts - inject_Z browserNow) st) ∧
     offsetSamples st' =
       offsetSamples (observeOffset (ts - inject_Z browserNow) st)).
Proof.
  assert (Hgen : ∀ xs,
     let st := observeAll xs initialState in
     offsetSamples st = drop (length xs - 20) xs ∧
     (length (offsetSamples st) ≤ 20)%nat ∧
     (xs = [] → offsetRef st = 0%Q) ∧
     (xs ≠ [] → (offsetRef st == mean (drop (length xs - 20) xs))%Q)).
  { intros xs st.
    assert (Hs : offsetSamples st = drop (length xs - 20) xs)
      by (by apply observeAll_samples).
    split; [done|]. split; [rewrite Hs, length_drop; lia|]. split.
    - by intros ->.
    - intros Hne. rewrite <- Hs. subst st.
      destruct xs as [|x xs _] using rev_ind; [done|].
      rewrite observeAll_snoc. apply observeOffset_mean. }
  split; [exact Hgen|]. split; [|split; [|split; [|split]]].
  - intros x st Hlen. rewrite observeOffset_samples
      by (unfold OFFSET_SAMPLE_SIZE; lia).
    rewrite Hlen. destruct (offsetSamples st); [done|]. reflexivity.
  - vm_compute. reflexivity.
  - intros xs Hlen. destruct (Hgen xs) as (Hs & _ & _ & Hm).
    rewrite Hlen in Hs, Hm. split; [exact Hs|].
    apply Hm. by intros ->.
  - intros ds. apply processAll_estimatorOK.
    split; [simpl; unfold OFFSET_SAMPLE_SIZE; lia|]. split; done.
  - intros. by eapply legacy_first_sensor_observed.
Qed.




(** C8: in binary mode, a batch decoded from a message on a mapped topic
    is stored without error; for every index i below both the length of
    the topic's key list and the number of decoded channels, the window of
    the i-th key becomes the filtered append of the i-th decoded channel;
    every other window is left as it was; decoded channels with an index
    at or beyond the length of the key list have no effect on the result. *)
Theorem binary_channel_routing `{Platform} (browserNow now : Z)
    (topic message : string) (mapping : list string) (st : State)
    (data b : jsval) (decoded : PiezoDecoded) :
  TOPIC_MAP !! topic = Some mapping →
  JSON_parse message = Some data →
  get_prop data "base64_sensordata" = Some b →
  truthy b = true →
  decodePiezoData b = Some decoded →
  ∃ st',
    handleMessage base64 browserNow now topic message st = (st', Completed) ∧
    (∀ i key channel,
       mapping !! i = Some key → channels decoded !! i = Some channel →
       piezo st' !! key =
         Some (combine now (windowOf (piezo st) key) (toPoint <$> channel))) ∧
    (∀ key, key ∉ take (Nat.min (length mapping) (length (channels decoded)))
                       mapping →
       piezo st' !! key = piezo st !! key) ∧
    piezo st' =
      storeDecoded now mapping
        (mkPiezoDecoded (take (length mapping) (channels decoded))
                        (baseTimestamp decoded) (sampleIntervalMs decoded))
        (piezo st) ∧
    temp1 st' = temp1 st ∧ hum1 st' = hum1 st ∧
    temp2 st' = temp2 st ∧ hum2 st' = hum2 st ∧
    offsetRef st' = offsetRef st ∧ offsetSamples st' = offsetSamples st.
Proof.
  intros Hmap Hparse Hb Htruthy Hdec.
  exists (setPiezo (storeDecoded now mapping decoded) st). split.
  { unfold handleMessage, piezoTry. rewrite Hmap, Hparse. simpl.
    rewrite Hb. simpl. rewrite Htruthy, Hdec. reflexivity. }
  apply TOPIC_MAP_lookup in Hmap as [-> ->]. simpl piezo.
  split; [|split; [|split; [|done]]].
  - intros i key channel Hk Hc. rewrite storeDecoded_stored.
    apply (stored_mapped _ _ _ _ key channel i); [apply mapping_NoDup| |done..].
    apply lookup_lt_Some in Hk, Hc. lia.
  - intros key Hnot. rewrite storeDecoded_stored.
    apply stored_unmapped. intros i Hi Hk. apply Hnot.
    apply list_elem_of_lookup. exists i. rewrite lookup_take_lt by lia. done.
  - by rewrite storeDecoded_take.
Qed.

Lemma binary_channel_routing_witness :
  ∃ st',
    @handleMessage Demo.platform base64 1732012345000 1732012346000 "iot/piezo"
      (Demo.json "{'base64_sensordata':'OWk8Z2QAAQUKABQAHgAoADIA'}")
      initialState = (st', Completed) ∧
    piezo st' !! "A1" = Some [Point.mk 1732012345000 0.10] ∧
    piezo st' !! "A2" = Some [Point.mk 1732012345000 0.40] ∧
    piezo st' !! "B2" = Some [].
Proof.
  destruct (@binary_channel_routing Demo.platform 1732012345000 1732012346000
              "iot/piezo"
              (Demo.json "{'base64_sensordata':'OWk8Z2QAAQUKABQAHgAoADIA'}")
              ["A1"; "B1"; "C1"; "A2"] initialState
              (VObj [("base64_sensordata", VStr "OWk8Z2QAAQUKABQAHgAoADIA")])
              (VStr "OWk8Z2QAAQUKABQAHgAoADIA")
              (mkPiezoDecoded
                 [[mkSample 1732012345000 0.10]; [mkSample 1732012345000 0.20];
                  [mkSample 1732012345000 0.30]; [mkSample 1732012345000 0.40];
                  [mkSample 1732012345000 0.50]]
                 1732012345 100))
    as (st' & Hrun & Hmapped & Hrest & _);
    [reflexivity | reflexivity | reflexivity | reflexivity | reflexivity |].
  exists st'. split; [exact Hrun|].
  split; [exact (Hmapped 0%nat "A1" _ eq_refl eq_refl)|].
  split; [exact (Hmapped 3%nat "A2" _ eq_refl eq_refl)|].
  rewrite (Hrest "B2"); [reflexivity|].
  simpl. intros Hin. repeat (apply elem_of_cons in Hin as [Hin|Hin]; [done|]).
  by apply elem_of_nil in Hin.
Defined.

Lemma TOPIC_MAP_temp : TOPIC_MAP !! "iot/temp" = None.
Proof. reflexivity. Qed.

Lemma TOPIC_MAP_piezo : TOPIC_MAP !! "iot/piezo" = Some ["A1"; "B1"; "C1"; "A2"].
Proof. reflexivity. Qed.

Lemma undecodable_handled `{Platform} (d : Delivery) (st : State) :
  undecodable d →
  ∃ status,
    handleMessage (d_mode d) (d_browserNow d) (d_now d) (d_topic d)
                  (d_message d) st = (st, status) ∧
    status ≠ UpdaterThrew.
Proof.
  intros [Hparse | (Hmode & data & b & Hparse & Hb & Htruthy & Hfail)];
    unfold handleMessage, piezoTry, tempTry; rewrite Hparse; simpl.
  - destruct (TOPIC_MAP !! d_topic d); [by exists Caught|].
    destruct (String.eqb _ _); [by exists Caught | by exists Completed].
  - rewrite Hmode. simpl. rewrite Hb. simpl. rewrite Htruthy.
    destruct Hfail as [[[mapping Hmap] Hdec] | [Htopic Hdec]].
    + rewrite Hmap, Hdec. by exists Completed.
    + rewrite Htopic, TOPIC_MAP_temp, Hdec. by exists Completed.
Qed.

(** C9: a message whose payload is not valid JSON, or whose binary record
    fails to decode, ends inside the handler (caught and logged, or
    skipped after the decoder returned null): the state after it, channel
    windows and temp/hum readings included, is the state before it, and a
    run gives the same state with or without that message. *)
Theorem undecodable_message_ignored `{Platform} (d : Delivery) (st : State) :
  undecodable d →
  (∃ status,
     handleMessage (d_mode d) (d_browserNow d) (d_now d) (d_topic d)
                   (d_message d) st = (st, status) ∧
     status ≠ UpdaterThrew) ∧
  (∀ before after st0,
     processAll (before ++ d :: after) st0 = processAll (before ++ after) st0).
Proof.
  intros Hbad. split; [by apply undecodable_handled|].
  assert (Hskip : ∀ s, deliver s d = s).
  { intros s. unfold deliver.
    by destruct (undecodable_handled d s Hbad) as (status & -> & _). }
  intros before after st0. unfold processAll. rewrite !foldl_app. simpl.
  by rewrite Hskip.
Qed.

Lemma undecodable_message_ignored_witness :
  let d := mkDelivery base64 1732012345000 1732012346000 "iot/piezo"
             (Demo.json "{'base64_sensordata':'OWk8Z2QAAwJkAACA+gCc/wEAAA=='}") in
  (∃ status,
     @handleMessage Demo.platform (d_mode d) (d_browserNow d) (d_now d)
       (d_topic d) (d_message d) initialState = (initialState, status) ∧
     status ≠ UpdaterThrew) ∧
  (∀ before after st0,
     @processAll Demo.platform (before ++ d :: after) st0 =
     @processAll Demo.platform (before ++ after) st0).
Proof.
  apply (@undecodable_message_ignored Demo.platform).
  right. split; [reflexivity|].
  exists (VObj [("base64_sensordata", VStr "OWk8Z2QAAwJkAACA+gCc/wEAAA==")]),
         (VStr "OWk8Z2QAAwJkAACA+gCc/wEAAA==").
  split; [reflexivity|]. split; [reflexivity|]. split; [reflexivity|].
  left. split; [by eexists | reflexivity].
Defined.

(** C10: a message on the piezo topic changes no channel window other
    than those of 'A1', 'B1', 'C1' and 'A2' and none of the temperature
    and humidity readings; a message on the temp topic changes no channel
    window and neither the second temperature nor the second humidity
    reading (nor the offset estimate). *)
Theorem handler_frame `{Platform} (decoderMode : DecoderMode)
    (browserNow now : Z) (message : string) (st : State) (key : string) :
  key ∉ ["A1"; "B1"; "C1"; "A2"] →
  (let st' := fst (handleMessage decoderMode browserNow now "iot/piezo"
                     message st) in
   piezo st' !! key = piezo st !! key ∧
   temp1 st' = temp1 st ∧ hum1 st' = hum1 st ∧
   temp2 st' = temp2 st ∧ hum2 st' = hum2 st) ∧
  (let st' := fst (handleMessage decoderMode browserNow now "iot/temp"
                     message st) in
   piezo st' = piezo st ∧
   temp2 st' = temp2 st ∧ hum2 st' = hum2 st ∧
   offsetRef st' = offsetRef st ∧ offsetSamples st' = offsetSamples st).
Proof.
  intros Hkey. split; unfold handleMessage.
  - rewrite TOPIC_MAP_piezo.
    destruct (piezoTry _ _ _ _ _ _) as [result|] eqn:Htry; [|done].
    destruct (piezoTry_cases _ _ _ _ _ _ _ Htry)
      as [-> | [[decoded ->] | (data & st1 & Hoff & Hres)]]; simpl.
    + done.
    + split; [|done]. rewrite storeDecoded_stored.
      apply stored_unmapped. intros i _ Hk. apply Hkey.
      by eapply list_elem_of_lookup_2.
    + destruct (updateOffset_frame _ _ _ _ _ _ Hoff) as (Hpz & Ht1 & Hh1 & Ht2 & Hh2).
      destruct Hres as [-> | (updated & Hst & ->)]; simpl.
      * by rewrite Hpz.
      * split; [|done]. rewrite <- Hpz.
        by eapply storeLegacy_unmapped.
  - rewrite TOPIC_MAP_temp. simpl. apply tempTry_offset.
Qed.

Lemma handler_frame_witness :
  (let st' := fst (@handleMessage Demo.platform base64 1732012345000
                     1732012346000 "iot/piezo"
                     (Demo.json "{'base64_sensordata':'OWk8Z2QAAQUKABQAHgAoADIA'}")
                     initialState) in
   piezo st' !! "B2" = piezo initialState !! "B2" ∧
   temp1 st' = temp1 initialState ∧ hum1 st' = hum1 initialState ∧
   temp2 st' = temp2 initialState ∧ hum2 st' = hum2 initialState) ∧
  (let st' := fst (@handleMessage Demo.platform base64 1732012345000
                     1732012346000 "iot/temp"
                     (Demo.json "{'base64_sensordata':'OWk8Z2QAAQUKABQAHgAoADIA'}")
                     initialState) in
   piezo st' = piezo initialState ∧
   temp2 st' = temp2 initialState ∧ hum2 st' = hum2 initialState ∧
   offsetRef st' = offsetRef initialState ∧
   offsetSamples st' = offsetSamples initialState).
Proof.
  apply (@handler_frame Demo.platform base64 1732012345000 1732012346000
           (Demo.json "{'base64_sensordata':'OWk8Z2QAAQUKABQAHgAoADIA'}")
           initialState "B2").
  intros Hin. repeat (apply elem_of_cons in Hin as [Hin|Hin]; [done|]).
  by apply elem_of_nil in Hin.
Defined.

(** * Runs of the model on the concrete platform *)

Section Runs.
#[local] Existing Instance Demo.platform.

(** A binary piezo batch fills the windows of the first two keys and
    skips the two sentinel samples. *)
Example run_binary_piezo :
  let st := fst (handleMessage base64 1732012345000 1732012346000 "iot/piezo"
                   (Demo.json "{'base64_sensordata':'OWk8Z2QAAwJkAACA+gCc/wEAAIA='}")
                   initialState) in
  piezo st !! "A1" = Some [Point.mk 1732012345000 1.00;
                           Point.mk 1732012345200 2.50] ∧
  piezo st !! "B1" = Some [Point.mk 1732012345000 (-1.00);
                           Point.mk 1732012345100 0.01] ∧
  piezo st !! "C1" = Some [].
Proof. vm_compute. done. Qed.

(** The same batch stored 21 s later is outside the window. *)
Example run_binary_piezo_stale :
  let st := fst (handleMessage base64 1732012345000 1732012366000 "iot/piezo"
                   (Demo.json "{'base64_sensordata':'OWk8Z2QAAwJkAACA+gCc/wEAAIA='}")
                   initialState) in
  piezo st !! "A1" = Some [] ∧ piezo st !! "B1" = Some [].
Proof. vm_compute. done. Qed.

Example run_binary_temp :
  handleMessage base64 1732012345000 1732012346000 "iot/temp"
    (Demo.json "{'base64_sensordata':'WZpGZykJhRo='}") initialState =
  (setHum1 67.89 (setTemp1 23.45 initialState), Completed).
Proof. reflexivity. Qed.

Example run_legacy_temp :
  handleMessage original 1732012345000 1732012346000 "iot/temp"
    (Demo.json "{'Temperature':21.5,'Humidity':40}") initialState =
  (setHum1 40 (setTemp1 21.5 initialState), Completed).
Proof. reflexivity. Qed.

(** A legacy reading with [ts] and without [v] is stored with value 0. *)
Example run_legacy_missing_v :
  ∃ d,
    piezo (fst (handleMessage original 1732012345000 1732012346000 "iot/piezo"
                  (Demo.json "{'Sensor1':{'ts':1732012345500}}") initialState))
      !! "A1" = Some [d] ∧
    (Point.time d == 1732012345000)%Q ∧ Point.value d = 0%Q.
Proof. eexists. split; [vm_compute; reflexivity|]. split; reflexivity. Qed.

(** The payload [null] parses, and reading a property of it throws inside
    the handler's [try]. *)
Example run_null_payload :
  handleMessage original 1732012345000 1732012346000 "iot/piezo" "null"
    initialState = (initialState, Caught).
Proof. reflexivity. Qed.

(** A [null] among the readings makes the state updater throw, outside
    every [try] of the handler. *)
Example run_null_reading :
  handleMessage original 1732012345000 1732012346000 "iot/piezo"
    (Demo.json "{'Sensor1':[null]}") initialState =
  (initialState, UpdaterThrew).
Proof. reflexivity. Qed.

(** A [v] with an own [toString] makes [Number(obj.v)] throw in the state
    updater. *)
Example run_throwing_v :
  snd (handleMessage original 1732012345000 1732012346000 "iot/piezo"
         (Demo.json "{'Sensor1':{'ts':1732012345500,'v':{'toString':1}}}")
         initialState) = UpdaterThrew.
Proof. reflexivity. Qed.

(** [Number] of parsed values: an own [toString] makes the conversion
    throw, also inside an array; a [null] element of an array does not. *)
Example number_of_parsed_values :
  ToNumber (VObj [("toString", VNum 1)]) = None ∧
  ToNumber (VArr [VNull; VObj [("toString", VNum 1)]]) = None ∧
  ToNumber (VObj [("valueOf", VNum 1)]) = Some None ∧
  conversionThrows (VArr [VNull; VNum 5]) = false ∧
  ToNumber (VBool true) = Some (Some 1%Q) ∧
  ToNumber VNull = Some (Some 0%Q) ∧
  ToNumber VUndefined = Some None.
Proof. repeat split. Qed.

(** [Number(data.Temperature)] throws inside the [try]: nothing is
    written. When [Number(data.Humidity)] throws, the temperature has
    been written. *)
Example run_legacy_temp_throwing :
  handleMessage original 1732012345000 1732012346000 "iot/temp"
    (Demo.json "{'Temperature':{'toString':1},'Humidity':40}") initialState =
  (initialState, Caught) ∧
  handleMessage original 1732012345000 1732012346000 "iot/temp"
    (Demo.json "{'Temperature':21.5,'Humidity':{'toString':1}}") initialState =
  (setTemp1 21.5 initialState, Caught).
Proof. split; reflexivity. Qed.

End Runs.

(** * Further properties of the decoders *)

Section DecoderReads.
Import DataView.

Lemma byteAt_range (view : DataView.t) (i : nat) (b : Z) :
  byteAt view i = Some b → 0 ≤ b < 256 ∧ (i < length view)%nat.
Proof.
  unfold byteAt. destruct (view !! i) as [x|] eqn:Hx; simpl; [|done].
  intros [= <-]. split; [apply u8_range | by eapply lookup_lt_Some].
Qed.

Lemma getUint16_range (view : DataView.t) (off : nat) (u : Z) :
  getUint16 view off = Some u → 0 ≤ u < 65536.
Proof.
  unfold getUint16.
  destruct (byteAt view off) as [b0|] eqn:H0; simpl; [|done].
  destruct (byteAt view (off + 1)) as [b1|] eqn:H1; simpl; [|done].
  apply byteAt_range in H0 as [? _]. apply byteAt_range in H1 as [? _].
  rewrite (lor_shiftl_add _ _ 8) by lia. intros [= <-]. lia.
Qed.

Lemma getInt16_bounds (view : DataView.t) (off : nat) (raw : Z) :
  getInt16 view off = Some raw → -32768 ≤ raw < 32768.
Proof.
  unfold getInt16.
  destruct (getUint16 view off) as [u|] eqn:Hu; simpl; [|done].
  apply getUint16_range in Hu. intros [= <-].
  destruct (u <? 32768) eqn:E; lia.
Qed.

Lemma getUint32_range (view : DataView.t) (off : nat) (u : Z) :
  getUint32 view off = Some u → 0 ≤ u < 4294967296.
Proof.
  unfold getUint32.
  destruct (byteAt view off) as [b0|] eqn:H0; simpl; [|done].
  destruct (byteAt view (off + 1)) as [b1|] eqn:H1; simpl; [|done].
  destruct (byteAt view (off + 2)) as [b2|] eqn:H2; simpl; [|done].
  destruct (byteAt view (off + 3)) as [b3|] eqn:H3; simpl; [|done].
  apply byteAt_range in H0 as [? _]. apply byteAt_range in H1 as [? _].
  apply byteAt_range in H2 as [? _]. apply byteAt_range in H3 as [? _].
  replace (Z.shiftl b3 24) with (Z.shiftl (Z.shiftl b3 8) 16)
    by (rewrite Z.shiftl_shiftl by lia; reflexivity).
  rewrite <- Z.shiftl_lor.
  rewrite (lor_shiftl_add b0 _ 8), (lor_shiftl_add b2 _ 8) by lia.
  rewrite (lor_shiftl_add _ _ 16) by lia.
  intros [= <-]. lia.
Qed.

Lemma getUint32_readable (view : DataView.t) (off : nat) :
  (off + 4 ≤ length view)%nat → is_Some (getUint32 view off).
Proof.
  intros Hlen. unfold getUint32.
  destruct (byteAt_Some view off) as (b0 & -> & _); [lia|].
  destruct (byteAt_Some view (off + 1)) as (b1 & -> & _); [lia|].
  destruct (byteAt_Some view (off + 2)) as (b2 & -> & _); [lia|].
  destruct (byteAt_Some view (off + 3)) as (b3 & -> & _); [lia|].
  simpl. eauto.
Qed.

(** Reads below [n] see the same bytes in the buffer cut at [n]. *)
Lemma byteAt_take (view : DataView.t) (n i : nat) :
  (i < n)%nat → byteAt (take n view) i = byteAt view i.
Proof. intros Hi. unfold byteAt. by rewrite lookup_take_lt. Qed.

Lemma getUint16_take (view : DataView.t) (n off : nat) :
  (off + 2 ≤ n)%nat → getUint16 (take n view) off = getUint16 view off.
Proof. intros Hn. unfold getUint16. by rewrite !byteAt_take by lia. Qed.

Lemma getInt16_take (view : DataView.t) (n off : nat) :
  (off + 2 ≤ n)%nat → getInt16 (take n view) off = getInt16 view off.
Proof. intros Hn. unfold getInt16. by rewrite getUint16_take. Qed.

Lemma getUint32_take (view : DataView.t) (n off : nat) :
  (off + 4 ≤ n)%nat → getUint32 (take n view) off = getUint32 view off.
Proof. intros Hn. unfold getUint32. by rewrite !byteAt_take by lia. Qed.

Lemma getUint8_take (view : DataView.t) (n off : nat) :
  (off < n)%nat → getUint8 (take n view) off = getUint8 view off.
Proof. apply byteAt_take. Qed.

End DecoderReads.

(** What a successful piezo decode has read and returned. *)
Lemma decodePiezoTrace_inv (view : DataView.t) (r : PiezoDecoded) (invalid : nat) :
  decodePiezoTrace view = Some (r, invalid) →
  ∃ bt si ns nc,
    DataView.getUint32 view 0 = Some bt ∧
    DataView.getUint16 view 4 = Some si ∧
    DataView.getUint8 view 6 = Some (Z.of_nat ns) ∧
    DataView.getUint8 view 7 = Some (Z.of_nat nc) ∧
    (8 + 2 * ns * nc ≤ length view)%nat ∧
    r = mkPiezoDecoded (map (channelPoints view bt si ns) (seq 0 nc)) bt si ∧
    invalid = invalidTotal view ns nc.
Proof.
  intros Hdec.
  assert (Hnt : ¬ piezoTruncated view).
  { intros Ht. by rewrite decodePiezoTrace_truncated in Hdec. }
  destruct (DataView.getUint32 view 0) as [bt|] eqn:Hbt;
    [|by unfold decodePiezoTrace in Hdec; rewrite Hbt in Hdec].
  destruct (DataView.getUint16 view 4) as [si|] eqn:Hsi;
    [|by unfold decodePiezoTrace in Hdec; rewrite Hbt, Hsi in Hdec].
  destruct (DataView.getUint8 view 6) as [ns|] eqn:Hns;
    [|by unfold decodePiezoTrace in Hdec; rewrite Hbt, Hsi, Hns in Hdec].
  destruct (DataView.getUint8 view 7) as [nc|] eqn:Hnc;
    [|by unfold decodePiezoTrace in Hdec; rewrite Hbt, Hsi, Hns, Hnc in Hdec].
  pose proof (byteAt_range _ _ _ Hns) as [Hnsr _].
  pose proof (byteAt_range _ _ _ Hnc) as [Hncr _].
  assert (Hlen : (8 + 2 * Z.to_nat ns * Z.to_nat nc ≤ length view)%nat).
  { destruct (decide (8 + 2 * Z.to_nat ns * Z.to_nat nc ≤ length view)%nat);
      [done|].
    exfalso. apply Hnt. right. eexists. split.
    - unfold declaredLength. rewrite Hns, Hnc. reflexivity.
    - lia. }
  rewrite (decodePiezoTrace_closed view bt si ns nc Hbt Hsi Hns Hnc Hlen) in Hdec.
  injection Hdec as <- <-.
  exists bt, si, (Z.to_nat ns), (Z.to_nat nc).
  rewrite !Z2Nat.id by lia. done.
Qed.

(** X1: [decodePiezoData] on bytes returns a result exactly when the
    buffer holds the 8-byte header and the whole record that the header
    declares. *)
Theorem decodePiezoBytes_succeeds_iff (view : DataView.t) :
  is_Some (decodePiezoBytes view) ↔
  (8 ≤ length view)%nat ∧
  ∃ n, declaredLength view = Some n ∧ (n ≤ length view)%nat.
Proof.
  unfold decodePiezoBytes. split.
  - intros [r Hr].
    destruct (decodePiezoTrace view) as [[r' invalid]|] eqn:Hdec; [|done].
    destruct (decodePiezoTrace_inv _ _ _ Hdec)
      as (bt & si & ns & nc & _ & _ & Hns & Hnc & Hlen & _).
    split; [lia|]. exists (8 + 2 * ns * nc)%nat. split; [|done].
    unfold declaredLength. rewrite Hns, Hnc. simpl. by rewrite !Nat2Z.id.
  - intros (H8 & n & Hdecl & Hn). unfold declaredLength in Hdecl.
    destruct (getUint32_readable view 0) as [bt Hbt]; [lia|].
    destruct (getUint16_Some view 4) as [si Hsi]; [lia|].
    destruct (DataView.getUint8 view 6) as [ns|] eqn:Hns; [|done].
    destruct (DataView.getUint8 view 7) as [nc|] eqn:Hnc; [|done].
    simpl in Hdecl. injection Hdecl as <-.
    rewrite (decodePiezoTrace_closed view bt si ns nc Hbt Hsi Hns Hnc Hn).
    simpl. eauto.
Qed.

(** X2: [decodeTempHumData] on bytes returns a result exactly when the
    buffer has at least 8 bytes, and the result depends on the first 8
    bytes only. *)
Theorem decodeTempHumBytes_succeeds_iff (view : DataView.t) :
  (is_Some (decodeTempHumBytes view) ↔ (8 ≤ length view)%nat) ∧
  decodeTempHumBytes (take 8 view) = decodeTempHumBytes view.
Proof.
  split; [split|].
  - intros Hsome. destruct (decide (8 ≤ length view)%nat); [done|].
    rewrite decodeTempHumBytes_short in Hsome by lia. by destruct Hsome.
  - intros Hlen. unfold decodeTempHumBytes.
    destruct (getUint32_readable view 0) as [ts ->]; [lia|].
    destruct (getInt16_Some view 4) as [t ->]; [lia|].
    destruct (getUint16_Some view 6) as [h ->]; [lia|].
    simpl. eauto.
  - unfold decodeTempHumBytes.
    by rewrite getUint32_take, getInt16_take, getUint16_take by lia.
Qed.

Lemma omap_ext_in {A B : Type} (f g : A → option B) (l : list A) :
  (∀ x, x ∈ l → f x = g x) → omap f l = omap g l.
Proof.
  induction l as [|x l IH]; intros Hfg; [done|].
  simpl. rewrite (Hfg x) by left.
  change (list_omap A B f l) with (omap f l).
  change (list_omap A B g l) with (omap g l).
  rewrite IH; [done|]. intros y Hy. apply Hfg. by right.
Qed.

Lemma pointAt_Some (view : DataView.t) (bt si : Z) (ns ch s : nat) (p : Sample) :
  pointAt view bt si ns ch s = Some p →
  ∃ raw,
    DataView.getInt16 view (valueOffset ns ch s) = Some raw ∧
    raw ≠ -32768 ∧
    p = mkSample (bt * 1000 + Z.of_nat s * si) (raw # 100).
Proof.
  unfold pointAt.
  destruct (DataView.getInt16 view (valueOffset ns ch s)) as [raw|];
    simpl; [|done].
  destruct (raw =? -32768) eqn:E; [done|].
  intros [= <-]. exists raw. split; [done|]. split; [lia | done].
Qed.

Lemma pointAt_take (view : DataView.t) (bt si : Z) (ns nc ch s : nat) :
  (ch < nc)%nat → (s < ns)%nat →
  pointAt (take (8 + 2 * ns * nc) view) bt si ns ch s =
  pointAt view bt si ns ch s.
Proof.
  intros Hch Hs. unfold pointAt.
  rewrite getInt16_take; [done|]. unfold valueOffset. nia.
Qed.

Lemma isInvalidAt_take (view : DataView.t) (ns nc ch s : nat) :
  (ch < nc)%nat → (s < ns)%nat →
  isInvalidAt (take (8 + 2 * ns * nc) view) ns ch s = isInvalidAt view ns ch s.
Proof.
  intros Hch Hs. unfold isInvalidAt.
  rewrite getInt16_take; [done|]. unfold valueOffset. nia.
Qed.

(** X3: the piezo decoder reads nothing beyond the record its header
    declares: cutting the buffer at the declared length changes neither
    the result nor the invalid count. *)
Theorem decodePiezo_ignores_trailing_bytes (view : DataView.t) (n : nat) :
  declaredLength view = Some n →
  (n ≤ length view)%nat →
  decodePiezoTrace (take n view) = decodePiezoTrace view.
Proof.
  intros Hdecl Hn. unfold declaredLength in Hdecl.
  destruct (DataView.getUint8 view 6) as [ns|] eqn:Hns; [|done].
  destruct (DataView.getUint8 view 7) as [nc|] eqn:Hnc; [|done].
  simpl in Hdecl. injection Hdecl as <-.
  destruct (getUint32_readable view 0) as [bt Hbt]; [lia|].
  destruct (getUint16_Some view 4) as [si Hsi]; [lia|].
  rewrite (decodePiezoTrace_closed view bt si ns nc Hbt Hsi Hns Hnc Hn).
  rewrite (decodePiezoTrace_closed _ bt si ns nc).
  - f_equal. f_equal; [f_equal|].
    + apply map_ext_in. intros ch Hch. apply in_seq in Hch.
      unfold channelPoints. apply omap_ext_in. intros s Hs.
      apply elem_of_seq in Hs. apply pointAt_take; lia.
    + unfold invalidTotal. f_equal. apply map_ext_in. intros ch Hch.
      apply in_seq in Hch. unfold invalidInChannel. f_equal.
      apply List.filter_ext_in. intros s Hs. apply in_seq in Hs.
      apply isInvalidAt_take; lia.
  - by rewrite getUint32_take by lia.
  - by rewrite getUint16_take by lia.
  - by rewrite getUint8_take by lia.
  - by rewrite getUint8_take by lia.
  - rewrite length_take. lia.
Qed.

Lemma decodePiezo_ignores_trailing_bytes_witness :
  decodePiezoTrace (take 20 (piezo_example ++ temphum_example)) =
  decodePiezoTrace (piezo_example ++ temphum_example).
Proof.
  apply (decodePiezo_ignores_trailing_bytes (piezo_example ++ temphum_example) 20).
  - reflexivity.
  - simpl. lia.
Defined.

Lemma channelPoints_conserved (view : DataView.t) (bt si : Z) (ns nc ch : nat) :
  (8 + 2 * ns * nc ≤ length view)%nat → (ch < nc)%nat →
  (length (channelPoints view bt si ns ch) + invalidInChannel view ns ch)%nat = ns.
Proof.
  intros Hlen Hch. unfold channelPoints.
  rewrite omap_pointAt_filter.
  - rewrite length_map, invalidInChannel_rawAt.
    rewrite Nat.add_comm, List.filter_length. apply length_seq.
  - intros s Hs. apply elem_of_seq in Hs.
    apply (value_section_readable view ns nc); lia.
Qed.

Lemma sum_list_conserved (view : DataView.t) (bt si : Z) (ns nc : nat) (l : list nat) :
  (8 + 2 * ns * nc ≤ length view)%nat →
  (∀ ch, ch ∈ l → (ch < nc)%nat) →
  (sum_list (length <$> map (channelPoints view bt si ns) l) +
   sum_list (map (invalidInChannel view ns) l))%nat = (ns * length l)%nat.
Proof.
  intros Hlen. induction l as [|ch l IH]; intros Hl; simpl; [lia|].
  pose proof (channelPoints_conserved view bt si ns nc ch Hlen
                (Hl ch ltac:(left))).
  specialize (IH (λ c Hc, Hl c (list_elem_of_further _ _ _ Hc))).
  change (list_fmap (list Sample) nat length
            (map (channelPoints view bt si ns) l))
    with (length <$> map (channelPoints view bt si ns) l).
  lia.
Qed.

(** X4: no position of the value section is lost or counted twice: a
    decoded batch has num_channels channels, each channel holds at most
    num_samples samples, and the samples of all channels together with
    the invalid count make num_samples * num_channels. *)
Theorem piezo_sample_count_conserved (view : DataView.t) (r : PiezoDecoded)
    (invalid : nat) (ns nc : Z) :
  decodePiezoTrace view = Some (r, invalid) →
  DataView.getUint8 view 6 = Some ns →
  DataView.getUint8 view 7 = Some nc →
  length (channels r) = Z.to_nat nc ∧
  Forall (λ channel, (length channel ≤ Z.to_nat ns)%nat) (channels r) ∧
  (sum_list (length <$> channels r) + invalid)%nat =
    (Z.to_nat ns * Z.to_nat nc)%nat.
Proof.
  intros Hdec Hns Hnc.
  destruct (decodePiezoTrace_inv _ _ _ Hdec)
    as (bt & si & ns' & nc' & _ & _ & Hns' & Hnc' & Hlen & -> & ->).
  rewrite Hns in Hns'. rewrite Hnc in Hnc'.
  injection Hns' as ->. injection Hnc' as ->. rewrite !Nat2Z.id. simpl.
  split; [by rewrite length_map, length_seq|]. split.
  - apply List.Forall_forall. intros channel Hin.
    apply in_map_iff in Hin as (ch & <- & Hch). apply in_seq in Hch.
    pose proof (channelPoints_conserved view bt si ns' nc' ch Hlen). lia.
  - unfold invalidTotal.
    rewrite (sum_list_conserved view bt si ns' nc'); [by rewrite length_seq|done|].
    intros ch Hch. apply elem_of_seq in Hch. lia.
Qed.

Lemma piezo_sample_count_conserved_witness :
  ∃ r invalid,
    decodePiezoTrace piezo_example = Some (r, invalid) ∧
    length (channels r) = 2%nat ∧
    Forall (λ channel, (length channel ≤ 3)%nat) (channels r) ∧
    (sum_list (length <$> channels r) + invalid)%nat = 6%nat.
Proof.
  destruct (decodePiezoTrace piezo_example) as [[r invalid]|] eqn:Hdec;
    [|discriminate Hdec].
  exists r, invalid. split; [reflexivity|].
  apply (piezo_sample_count_conserved piezo_example r invalid 3 2);
    [exact Hdec | reflexivity | reflexivity].
Defined.

Lemma channelPoints_sorted (view : DataView.t) (bt si : Z) (ns ch : nat)
    (l : list nat) :
  0 ≤ si → StronglySorted lt l →
  StronglySorted Z.le (timestamp <$> omap (pointAt view bt si ns ch) l) ∧
  (si ≠ 0 →
   StronglySorted Z.lt (timestamp <$> omap (pointAt view bt si ns ch) l)).
Proof.
  intros Hsi Hl. induction Hl as [|s l Hl [IHle IHlt] Hall].
  - split; [|intros _]; constructor.
  - assert (Hafter : ∀ t, t ∈ timestamp <$> omap (pointAt view bt si ns ch) l →
                          ∃ s', (s < s')%nat ∧ t = bt * 1000 + Z.of_nat s' * si).
    { intros t Ht. apply list_elem_of_fmap in Ht as (p & -> & Hp).
      apply list_elem_of_omap in Hp as (s' & Hs' & Hp).
      apply pointAt_Some in Hp as (raw & _ & _ & ->).
      exists s'. split; [|done].
      rewrite List.Forall_forall in Hall. apply Hall. by apply list_elem_of_In. }
    simpl. destruct (pointAt view bt si ns ch s) as [p|] eqn:Hp;
      [|by split].
    apply pointAt_Some in Hp as (raw & _ & _ & ->). simpl.
    change (list_fmap Sample Z timestamp
              (list_omap nat Sample (pointAt view bt si ns ch) l))
      with (timestamp <$> omap (pointAt view bt si ns ch) l).
    split; [|intros Hnz]; constructor; auto;
      apply List.Forall_forall; intros t Ht;
      apply list_elem_of_In, Hafter in Ht as (s' & Hs' & ->); nia.
Qed.

Lemma seq_sorted (start len : nat) : StronglySorted lt (seq start len).
Proof.
  revert start. induction len as [|len IH]; intros start; simpl;
    constructor; [apply IH|].
  apply List.Forall_forall. intros x Hx. apply in_seq in Hx. lia.
Qed.

(** X5: in every channel of a decoded batch the samples come in
    non-decreasing timestamp order, and in strictly increasing order (so
    with pairwise different timestamps) when the sample interval is not
    0. *)
Theorem piezo_channel_timestamps_sorted (view : DataView.t) (r : PiezoDecoded)
    (channel : list Sample) :
  decodePiezoBytes view = Some r →
  channel ∈ channels r →
  StronglySorted Z.le (timestamp <$> channel) ∧
  (sampleIntervalMs r ≠ 0 → StronglySorted Z.lt (timestamp <$> channel)).
Proof.
  unfold decodePiezoBytes. intros Hdec Hin.
  destruct (decodePiezoTrace view) as [[r' invalid]|] eqn:Htrace; [|done].
  injection Hdec as ->.
  destruct (decodePiezoTrace_inv _ _ _ Htrace)
    as (bt & si & ns & nc & _ & Hsi & _ & _ & _ & -> & _).
  simpl in *. apply list_elem_of_In, in_map_iff in Hin as (ch & <- & _).
  apply getUint16_range in Hsi.
  apply channelPoints_sorted; [lia | apply seq_sorted].
Qed.

Lemma piezo_channel_timestamps_sorted_witness :
  StronglySorted Z.le
    (timestamp <$> [mkSample 1732012345000 1.00; mkSample 1732012345200 2.50]) ∧
  (100 ≠ 0 →
   StronglySorted Z.lt
     (timestamp <$> [mkSample 1732012345000 1.00; mkSample 1732012345200 2.50])).
Proof.
  apply (piezo_channel_timestamps_sorted piezo_example
           (mkPiezoDecoded
              [[mkSample 1732012345000 1.00; mkSample 1732012345200 2.50];
               [mkSample 1732012345000 (-1.00); mkSample 1732012345100 0.01]]
              1732012345 100)).
  - reflexivity.
  - left.
Defined.

(** X6: the numbers of a decoded batch stay in the ranges of the binary
    format: the base timestamp is a uint32, the interval a uint16, there
    are at most 255 channels, and every sample has value raw/100 for an
    integer raw with -32767 <= raw <= 32767 (the sentinel never shows) and
    a timestamp between base*1000 and base*1000 + 254*interval. *)
Theorem piezo_decoded_ranges (view : DataView.t) (r : PiezoDecoded) :
  decodePiezoBytes view = Some r →
  0 ≤ baseTimestamp r < 4294967296 ∧
  0 ≤ sampleIntervalMs r < 65536 ∧
  (length (channels r) ≤ 255)%nat ∧
  ∀ channel p, channel ∈ channels r → p ∈ channel →
    (∃ raw, -32767 ≤ raw ≤ 32767 ∧ value p = (raw # 100)%Q) ∧
    baseTimestamp r * 1000 ≤ timestamp p ≤
      baseTimestamp r * 1000 + 254 * sampleIntervalMs r.
Proof.
  unfold decodePiezoBytes. intros Hdec.
  destruct (decodePiezoTrace view) as [[r' invalid]|] eqn:Htrace; [|done].
  injection Hdec as ->.
  destruct (decodePiezoTrace_inv _ _ _ Htrace)
    as (bt & si & ns & nc & Hbt & Hsi & Hns & Hnc & _ & -> & _).
  simpl. apply getUint32_range in Hbt. apply getUint16_range in Hsi.
  apply byteAt_range in Hns as [Hns _]. apply byteAt_range in Hnc as [Hnc _].
  split; [done|]. split; [done|].
  split; [rewrite length_map, length_seq; lia|].
  intros channel p Hch Hp.
  apply list_elem_of_In, in_map_iff in Hch as (ch & <- & _).
  apply list_elem_of_omap in Hp as (s & Hs & Hp). apply elem_of_seq in Hs.
  apply pointAt_Some in Hp as (raw & Hraw & Hne & ->). simpl.
  apply getInt16_bounds in Hraw.
  split; [exists raw; split; [lia|done]|].
  assert (0 ≤ Z.of_nat s * si) by (apply Z.mul_nonneg_nonneg; lia).
  assert (Z.of_nat s * si ≤ 254 * si)
    by (apply Z.mul_le_mono_nonneg_r; lia).
  lia.
Qed.

Lemma piezo_decoded_ranges_witness :
  let r := mkPiezoDecoded
             [[mkSample 1732012345000 1.00; mkSample 1732012345200 2.50];
              [mkSample 1732012345000 (-1.00); mkSample 1732012345100 0.01]]
             1732012345 100 in
  0 ≤ baseTimestamp r < 4294967296 ∧
  0 ≤ sampleIntervalMs r < 65536 ∧
  (length (channels r) ≤ 255)%nat ∧
  ∀ channel p, channel ∈ channels r → p ∈ channel →
    (∃ raw, -32767 ≤ raw ≤ 32767 ∧ value p = (raw # 100)%Q) ∧
    baseTimestamp r * 1000 ≤ timestamp p ≤
      baseTimestamp r * 1000 + 254 * sampleIntervalMs r.
Proof.
  intros r. apply (piezo_decoded_ranges piezo_example r). reflexivity.
Defined.

(** X7: a decoded temperature/humidity record stays in the ranges of the
    binary format: the timestamp is a uint32 (seconds), the temperature is
    raw/100 for a signed 16-bit raw (-327.68 included: this format has no
    sentinel), the humidity is raw/100 for an unsigned 16-bit raw. *)
Theorem temphum_decoded_ranges (view : DataView.t) (r : TempHum) :
  decodeTempHumBytes view = Some r →
  0 ≤ th_timestamp r < 4294967296 ∧
  (∃ raw, -32768 ≤ raw ≤ 32767 ∧ temperature r = (raw # 100)%Q) ∧
  (∃ raw, 0 ≤ raw ≤ 65535 ∧ humidity r = (raw # 100)%Q).
Proof.
  unfold decodeTempHumBytes. intros Hdec.
  destruct (DataView.getUint32 view 0) as [ts|] eqn:Hts; simpl in Hdec; [|done].
  destruct (DataView.getInt16 view 4) as [t|] eqn:Ht; simpl in Hdec; [|done].
  destruct (DataView.getUint16 view 6) as [h|] eqn:Hh; simpl in Hdec; [|done].
  injection Hdec as <-. simpl.
  apply getUint32_range in Hts. apply getInt16_bounds in Ht.
  apply getUint16_range in Hh.
  split; [done|]. split; [exists t | exists h]; split; (lia || done).
Qed.

Lemma temphum_decoded_ranges_witness :
  0 ≤ 1732680281 < 4294967296 ∧
  (∃ raw, -32768 ≤ raw ≤ 32767 ∧ 23.45%Q = (raw # 100)%Q) ∧
  (∃ raw, 0 ≤ raw ≤ 65535 ∧ 67.89%Q = (raw # 100)%Q).
Proof.
  apply (temphum_decoded_ranges temphum_example
           (mkTempHum 1732680281 23.45 67.89)).
  reflexivity.
Defined.

(** X8: a buffer whose header declares no values (zero samples or zero
    channels) decodes without error, whatever follows the header: every
    channel of the result is empty and the invalid count is 0. *)
Theorem piezo_header_only (view : DataView.t) :
  (8 ≤ length view)%nat →
  declaredLength view = Some 8%nat →
  ∃ r, decodePiezoTrace view = Some (r, 0%nat) ∧
       Forall (λ channel, channel = []) (channels r).
Proof.
  intros H8 Hdecl.
  destruct (getUint32_readable view 0) as [bt Hbt]; [lia|].
  destruct (getUint16_Some view 4) as [si Hsi]; [lia|].
  destruct (byteAt_Some view 6) as (ns & Hns & Hnsr); [lia|].
  destruct (byteAt_Some view 7) as (nc & Hnc & Hncr); [lia|].
  assert (Hzero : (Z.to_nat ns * Z.to_nat nc = 0)%nat).
  { unfold declaredLength, DataView.getUint8 in Hdecl.
    rewrite Hns, Hnc in Hdecl. simpl in Hdecl. injection Hdecl as Hz. lia. }
  assert (Hempty : ∀ ch, (ch < Z.to_nat nc)%nat → Z.to_nat ns = 0%nat)
    by (intros; nia).
  rewrite (decodePiezoTrace_closed view bt si ns nc Hbt Hsi Hns Hnc) by lia.
  eexists. split; [f_equal; f_equal|].
  - unfold invalidTotal.
    assert (Hall : ∀ ch, ch ∈ seq 0 (Z.to_nat nc) →
                         invalidInChannel view (Z.to_nat ns) ch = 0%nat).
    { intros ch Hch. apply elem_of_seq in Hch.
      rewrite (Hempty ch) by lia. reflexivity. }
    induction (seq 0 (Z.to_nat nc)) as [|ch l IH]; [done|]. simpl.
    rewrite (Hall ch) by left. apply IH. intros c Hc. apply Hall. by right.
  - simpl. apply List.Forall_forall. intros channel Hin.
    apply in_map_iff in Hin as (ch & <- & Hch). apply in_seq in Hch.
    rewrite (Hempty ch) by lia. reflexivity.
Qed.

Lemma piezo_header_only_witness :
  ∃ r, decodePiezoTrace (take 6 piezo_example ++ [Byte.x00; Byte.x04] ++ temphum_example)
         = Some (r, 0%nat) ∧
       Forall (λ channel, channel = []) (channels r).
Proof.
  apply (piezo_header_only
           (take 6 piezo_example ++ [Byte.x00; Byte.x04] ++ temphum_example)).
  - simpl. lia.
  - reflexivity.
Defined.

(** * Further properties of the message handler *)

Section HandlerExtras.
Context `{Platform}.
#[local] Arguments updateOffset : simpl never.

(** X9: in binary mode a message without [base64_sensordata], or with a
    falsy one (empty string, 0, false, null), is handled exactly as in
    legacy mode, on every topic. *)
Theorem base64_without_payload_is_legacy (browserNow now : Z)
    (topic message : string) (st : State) (data b : jsval) :
  JSON_parse message = Some data →
  get_prop data "base64_sensordata" = Some b →
  truthy b = false →
  handleMessage base64 browserNow now topic message st =
  handleMessage original browserNow now topic message st.
Proof.
  intros Hparse Hb Hfalsy. unfold handleMessage, piezoTry, tempTry.
  rewrite Hparse. simpl. rewrite Hb. simpl. rewrite Hfalsy. reflexivity.
Qed.

Lemma deliver_frame (st : State) (d : Delivery) (key : string) :
  key ∉ ["A1"; "B1"; "C1"; "A2"] →
  piezo (deliver st d) !! key = piezo st !! key ∧
  temp2 (deliver st d) = temp2 st ∧ hum2 (deliver st d) = hum2 st.
Proof.
  intros Hkey. unfold deliver, handleMessage.
  destruct (TOPIC_MAP !! d_topic d) as [mapping|] eqn:Hmap.
  - apply TOPIC_MAP_lookup in Hmap as [_ ->].
    destruct (piezoTry _ _ _ _ _ _) as [result|] eqn:Htry; [|done].
    destruct (piezoTry_cases _ _ _ _ _ _ _ Htry)
      as [-> | [[decoded ->] | (data & st1 & Hoff & Hres)]]; simpl.
    + done.
    + split; [|done]. rewrite storeDecoded_stored.
      apply stored_unmapped. intros i _ Hk. apply Hkey.
      by eapply list_elem_of_lookup_2.
    + destruct (updateOffset_frame _ _ _ _ _ _ Hoff)
        as (Hpz & _ & _ & Ht2 & Hh2).
      destruct Hres as [-> | (updated & Hst & ->)]; simpl.
      * by rewrite Hpz.
      * split; [|done]. rewrite <- Hpz. by eapply storeLegacy_unmapped.
  - destruct (String.eqb _ _); [|done].
    destruct (tempTry_offset (d_mode d) (d_message d) st)
      as (Hpz & Ht2 & Hh2 & _).
    by rewrite Hpz.
Qed.

(** X10: along every run of messages on the subscribed topics,
    whatever their modes and payloads, the second temperature and
    humidity readings keep their initial value and every channel window
    other than those of 'A1', 'B1', 'C1' and 'A2' keeps its initial
    content: from the initial state the two gauges stay at 0 and the
    twelve other plots stay empty. *)
Theorem unmapped_outputs_never_change (ds : list Delivery) (st : State) :
  Forall (λ d, d_topic d ∈ subscribeTopics) ds →
  temp2 (processAll ds st) = temp2 st ∧
  hum2 (processAll ds st) = hum2 st ∧
  (∀ key, key ∉ ["A1"; "B1"; "C1"; "A2"] →
     piezo (processAll ds st) !! key = piezo st !! key) ∧
  temp2 (processAll ds initialState) = 0%Q ∧
  hum2 (processAll ds initialState) = 0%Q ∧
  (∀ key, key ∈ ["B2"; "C2"; "D1"; "E1"; "A3"; "B3"; "C3"; "A4";
                 "B4"; "C4"; "D2"; "E2"] →
     piezo (processAll ds initialState) !! key = Some []).
Proof.
  intros _.
  assert (Hgen : ∀ st0,
     temp2 (processAll ds st0) = temp2 st0 ∧
     hum2 (processAll ds st0) = hum2 st0 ∧
     (∀ key, key ∉ ["A1"; "B1"; "C1"; "A2"] →
        piezo (processAll ds st0) !! key = piezo st0 !! key)).
  { intros st0. induction ds as [|d ds IH] using rev_ind; [done|].
    rewrite processAll_snoc. destruct IH as (IH2 & IHh & IHp).
    assert (Hb2 : "B2" ∉ ["A1"; "B1"; "C1"; "A2"]).
    { intros Hin. repeat (apply elem_of_cons in Hin as [Hin|Hin]; [done|]).
      by apply elem_of_nil in Hin. }
    destruct (deliver_frame (processAll ds st0) d "B2" Hb2) as (_ & -> & ->).
    split; [done|]. split; [done|]. intros key Hkey.
    destruct (deliver_frame (processAll ds st0) d key Hkey) as (-> & _).
    by apply IHp. }
  destruct (Hgen st) as (H2 & Hh & Hp).
  destruct (Hgen initialState) as (H2i & Hhi & Hpi).
  split; [done|]. split; [done|]. split; [done|].
  split; [done|]. split; [done|].
  intros key Hkey. rewrite Hpi.
  - repeat (apply elem_of_cons in Hkey as [->|Hkey]; [reflexivity|]).
    by apply elem_of_nil in Hkey.
  - intros Hin.
    repeat (apply elem_of_cons in Hkey as [->|Hkey];
      [repeat (apply elem_of_cons in Hin as [Hin|Hin]; [done|]);
       by apply elem_of_nil in Hin|]).
    by apply elem_of_nil in Hkey.
Qed.

End HandlerExtras.

Lemma base64_without_payload_is_legacy_witness :
  @handleMessage Demo.platform base64 1732012345000 1732012346000 "iot/temp"
    (Demo.json "{'Temperature':21.5,'Humidity':40}") initialState =
  @handleMessage Demo.platform original 1732012345000 1732012346000 "iot/temp"
    (Demo.json "{'Temperature':21.5,'Humidity':40}") initialState.
Proof.
  apply (@base64_without_payload_is_legacy Demo.platform 1732012345000
           1732012346000 "iot/temp"
           (Demo.json "{'Temperature':21.5,'Humidity':40}") initialState
           (VObj [("Temperature", VNum 21.5); ("Humidity", VNum 40)])
           VUndefined);
    reflexivity.
Defined.

Lemma unmapped_outputs_never_change_witness :
  Forall (λ d, d_topic d ∈ subscribeTopics) demo_run ∧
  temp2 (@processAll Demo.platform demo_run initialState) = temp2 initialState ∧
  hum2 (@processAll Demo.platform demo_run initialState) = hum2 initialState ∧
  (∀ key, key ∉ ["A1"; "B1"; "C1"; "A2"] →
     piezo (@processAll Demo.platform demo_run initialState) !! key =
     piezo initialState !! key) ∧
  temp2 (@processAll Demo.platform demo_run initialState) = 0%Q ∧
  hum2 (@processAll Demo.platform demo_run initialState) = 0%Q ∧
  (∀ key, key ∈ ["B2"; "C2"; "D1"; "E1"; "A3"; "B3"; "C3"; "A4";
                 "B4"; "C4"; "D2"; "E2"] →
     piezo (@processAll Demo.platform demo_run initialState) !! key = Some []).
Proof.
  assert (Hrun : Forall (λ d, d_topic d ∈ subscribeTopics) demo_run)
    by (unfold demo_run, subscribeTopics; repeat constructor).
  split; [exact Hrun|].
  exact (@unmapped_outputs_never_change Demo.platform demo_run initialState Hrun).
Defined.

Section KeySet.
Context `{Platform}.

Lemma deliver_appendedOrKept (st : State) (d : Delivery) (key : string) :
  appendedOrKept (d_now d) (piezo st) key (piezo (deliver st d)).
Proof.
  unfold deliver.
  destruct (TOPIC_MAP !! d_topic d) as [mapping|] eqn:Hmap.
  - by eapply handleMessage_piezo_window.
  - unfold handleMessage. rewrite Hmap.
    destruct (String.eqb _ _); [|by left].
    destruct (tempTry_offset (d_mode d) (d_message d) st) as (Hpz & _).
    left. by rewrite Hpz.
Qed.

Lemma deliver_keys (st : State) (d : Delivery) (key : string) :
  is_Some (piezo st !! key) → is_Some (piezo (deliver st d) !! key).
Proof.
  intros Hsome.
  destruct (deliver_appendedOrKept st d key) as [-> | [newPoints ->]]; eauto.
Qed.

Lemma makeEmptyState_lookup (key : string) :
  is_Some (makeEmptyState !! key) ↔ key ∈ SENSOR_KEYS.
Proof.
  unfold makeEmptyState. split.
  - intros [w Hw]. apply elem_of_list_to_map_2 in Hw.
    apply list_elem_of_fmap in Hw as (k & [= <- _] & Hk). done.
  - intros Hin.
    destruct (list_to_map ((λ k, (k, [])) <$> SENSOR_KEYS) !! key)
      as [w|] eqn:Hw; [eauto|].
    apply not_elem_of_list_to_map_2 in Hw. exfalso. apply Hw.
    apply list_elem_of_fmap. exists (key, []). split; [done|].
    apply list_elem_of_fmap. by exists key.
Qed.

(** X11: the set of channel keys never changes: along every run of
    messages on the subscribed topics from the initial state, the state
    holds a window for each of the sixteen sensor keys and for no other
    key, so every plot always has a sequence to show. *)
Theorem channel_keys_never_change (ds : list Delivery) (key : string) :
  Forall (λ d, d_topic d ∈ subscribeTopics) ds →
  is_Some (piezo (processAll ds initialState) !! key) ↔ key ∈ SENSOR_KEYS.
Proof.
  intros _. induction ds as [|d ds IH] using rev_ind.
  - apply makeEmptyState_lookup.
  - rewrite processAll_snoc. rewrite <- IH. split.
    + intros Hsome.
      destruct (decide (key ∈ ["A1"; "B1"; "C1"; "A2"])) as [Hin|Hnot].
      * apply IH.
        repeat (apply elem_of_cons in Hin as [->|Hin];
                [repeat constructor|]).
        by apply elem_of_nil in Hin.
      * destruct (deliver_frame (processAll ds initialState) d key Hnot)
          as (Heq & _).
        by rewrite <- Heq.
    + apply deliver_keys.
Qed.

End KeySet.

Lemma channel_keys_never_change_witness :
  Forall (λ d, d_topic d ∈ subscribeTopics) demo_run ∧
  (is_Some (piezo (@processAll Demo.platform demo_run initialState) !! "undefined")
   ↔ "undefined" ∈ SENSOR_KEYS).
Proof.
  assert (Hrun : Forall (λ d, d_topic d ∈ subscribeTopics) demo_run)
    by (unfold demo_run, subscribeTopics; repeat constructor).
  split; [exact Hrun|].
  exact (@channel_keys_never_change Demo.platform demo_run "undefined" Hrun).
Defined.

(** * How appends compose *)

Lemma inWindow_mono (now1 now2 : Z) (d : Point.t) :
  now1 ≤ now2 → inWindow now2 d = true → inWindow now1 d = true.
Proof.
  intros Hle. rewrite !inWindow_spec. intros Hw.
  rewrite Zle_Qle in Hle. lra.
Qed.

Lemma filter_filter_implied {A : Type} (p q : A → bool) (l : list A) :
  (∀ x, q x = true → p x = true) →
  List.filter q (List.filter p l) = List.filter q l.
Proof.
  intros Himp. induction l as [|x l IH]; [done|]. simpl.
  destruct (p x) eqn:Hp; simpl.
  - by rewrite IH.
  - destruct (q x) eqn:Hq; [|done].
    apply Himp in Hq. congruence.
Qed.

(** X12: with a clock that does not go back, two appends to a window
    amount to one: appending [new2] at time [now2] to the window obtained
    by appending [new1] at an earlier time [now1] gives the same window as
    appending [new1] followed by [new2] at time [now2]. Nothing dropped by
    the first append would have survived the second. *)
Theorem appends_compose (now1 now2 : Z) (oldArr new1 new2 : list Point.t) :
  now1 ≤ now2 →
  combine now2 (combine now1 oldArr new1) new2 =
  combine now2 oldArr (new1 ++ new2).
Proof.
  intros Hle. unfold combine.
  rewrite (app_assoc oldArr new1 new2).
  rewrite (List.filter_app _ (List.filter _ _) new2).
  rewrite (List.filter_app _ (oldArr ++ new1) new2).
  f_equal. apply filter_filter_implied. intros d. by apply inWindow_mono.
Qed.

Lemma appends_compose_witness :
  combine 1732012366000
    (combine 1732012346000 [] [Point.mk 1732012345000 1; Point.mk 1732012346000 2])
    [Point.mk 1732012366000 3] =
  combine 1732012366000 []
    ([Point.mk 1732012345000 1; Point.mk 1732012346000 2] ++
     [Point.mk 1732012366000 3]).
Proof.
  apply (appends_compose 1732012346000 1732012366000). lia.
Defined.

(** * How a legacy message ends *)

Section LegacyOutcome.
Context `{Platform}.
#[local] Arguments updateOffset : simpl never.

Lemma updateOffset_is_Some (count i : nat) (data : jsval) (browserNow : Z)
    (st : State) :
  isNullish data = false → is_Some (updateOffset i count data browserNow st).
Proof.
  intros Hd. revert i. induction count as [|count IH]; intros i;
    [by eexists|].
  rewrite updateOffset_S, (slotValue_get data i Hd). simpl.
  destruct (deviceTs _); [eauto | apply IH].
Qed.

(** X14: how the handling of a legacy message on a mapped topic ends,
    once the payload has parsed: a payload that is [null] throws inside
    the handler's [try] and nothing changes; otherwise the state updater
    returns exactly when no reading of the four sensor slots is [null]
    and [Number(v)] returns for each of them, and throws otherwise,
    outside every [try]. *)
Theorem legacy_outcome (browserNow now : Z) (topic message : string)
    (mapping : list string) (st : State) (data : jsval) :
  TOPIC_MAP !! topic = Some mapping →
  JSON_parse message = Some data →
  let result := handleMessage original browserNow now topic message st in
  if isNullish data then result = (st, Caught)
  else snd result = (if readingsConvert data then Completed else UpdaterThrew).
Proof.
  intros Hmap Hparse. apply TOPIC_MAP_lookup in Hmap as Hm.
  destruct Hm as [_ ->]. unfold handleMessage, piezoTry.
  rewrite Hmap, Hparse. simpl.
  destruct (isNullish data) eqn:Hd.
  - by rewrite updateOffset_S, (get_prop_nullish data _ Hd).
  - destruct (updateOffset_is_Some 4 0 data browserNow st Hd) as [st1 Hoff].
    rewrite Hoff. simpl.
    pose proof (storeLegacy_is_Some (offsetRef st1) now data (piezo st1) Hd)
      as Hiff.
    destruct (storeLegacy _ _ _ _ _) as [updated|]; simpl.
    + rewrite (proj1 Hiff) by eauto. done.
    + destruct (readingsConvert data); [|done].
      destruct (proj2 Hiff eq_refl) as [? [=]].
Qed.

End LegacyOutcome.

Lemma legacy_outcome_witness :
  snd (@handleMessage Demo.platform original 1732012345000 1732012346000
         "iot/piezo"
         (Demo.json "{'Sensor1':{'ts':1732012345500,'v':{'toString':1}}}")
         initialState) = UpdaterThrew.
Proof.
  apply (@legacy_outcome Demo.platform 1732012345000 1732012346000 "iot/piezo"
           (Demo.json "{'Sensor1':{'ts':1732012345500,'v':{'toString':1}}}")
           ["A1"; "B1"; "C1"; "A2"] initialState
           (VObj [("Sensor1", VObj [("ts", VNum 1732012345500);
                                    ("v", VObj [("toString", VNum 1)])])]));
    reflexivity.
Defined.

(** * Which sensor slot feeds the offset estimate *)

Lemma updateOffset_skip (k : nat) :
  ∀ (i count : nat) (data : jsval) (browserNow : Z) (st : State),
  isNullish data = false →
  (∀ j, (i ≤ j < i + k)%nat →
        deviceTs (firstOrSelf (slotValue data j)) = None) →
  updateOffset i (k + count) data browserNow st =
  updateOffset (i + k) count data browserNow st.
Proof.
  induction k as [|k IH]; intros i count data browserNow st Hd Hnone.
  - by rewrite Nat.add_0_r.
  - change (S k + count)%nat with (S (k + count)).
    rewrite updateOffset_S, (slotValue_get data i Hd). simpl.
    rewrite (Hnone i) by lia.
    rewrite IH by (done || intros j Hj; apply Hnone; lia).
    f_equal. lia.
Qed.

Section OffsetSlot.
Context `{Platform}.
#[local] Arguments updateOffset : simpl never.

Lemma legacy_estimator_after (browserNow now : Z) (topic message : string)
    (mapping : list string) (st st1 : State) (data : jsval) :
  TOPIC_MAP !! topic = Some mapping →
  JSON_parse message = Some data →
  updateOffset 0 4 data browserNow st = Some st1 →
  let st' := fst (handleMessage original browserNow now topic message st) in
  offsetRef st' = offsetRef st1 ∧ offsetSamples st' = offsetSamples st1.
Proof.
  intros Hmap Hparse Hoff. unfold handleMessage, piezoTry.
  rewrite Hmap, Hparse. simpl. rewrite Hoff. simpl.
  by destruct (storeLegacy _ _ _ _ _).
Qed.

(** X15: in legacy mode the offset estimate is fed by the first of the
    four sensor slots whose first sample carries a numeric [ts] (for an
    array slot only its first element counts): the estimator observes
    ts - browserNow for it, once; the slots before it are passed over and
    the slots after it are not looked at. *)
Theorem offset_fed_by_first_slot_with_ts (browserNow now : Z)
    (topic message : string) (mapping : list string) (st : State)
    (data : jsval) (j : nat) (ts : Q) :
  TOPIC_MAP !! topic = Some mapping →
  JSON_parse message = Some data →
  isNullish data = false →
  (j < 4)%nat →
  (∀ i, (i < j)%nat → deviceTs (firstOrSelf (slotValue data i)) = None) →
  deviceTs (firstOrSelf (slotValue data j)) = Some ts →
  let st' := fst (handleMessage original browserNow now topic message st) in
  offsetRef st' = offsetRef (observeOffset (ts - inject_Z browserNow) st) ∧
  offsetSamples st' = offsetSamples (observeOffset (ts - inject_Z browserNow) st).
Proof.
  intros Hmap Hparse Hd Hj Hnone Hts.
  apply (legacy_estimator_after _ _ _ _ mapping st _ data); [done..|].
  replace 4%nat with (j + S (3 - j))%nat by lia.
  rewrite updateOffset_skip by (done || intros i Hi; apply Hnone; lia).
  rewrite updateOffset_S, (slotValue_get data _ Hd). simpl.
  by rewrite Hts.
Qed.

End OffsetSlot.

Lemma offset_fed_by_first_slot_with_ts_witness :
  let st' := fst (@handleMessage Demo.platform original 1732012345000
                    1732012346000 "iot/piezo"
                    (Demo.json "{'Sensor1':{'v':2},'Sensor2':{'ts':1732012345500,'v':3}}")
                    initialState) in
  offsetRef st' =
    offsetRef (observeOffset (1732012345500 - inject_Z 1732012345000)
                             initialState) ∧
  offsetSamples st' =
    offsetSamples (observeOffset (1732012345500 - inject_Z 1732012345000)
                                 initialState).
Proof.
  apply (@offset_fed_by_first_slot_with_ts Demo.platform 1732012345000
           1732012346000 "iot/piezo"
           (Demo.json "{'Sensor1':{'v':2},'Sensor2':{'ts':1732012345500,'v':3}}")
           ["A1"; "B1"; "C1"; "A2"] initialState
           (VObj [("Sensor1", VObj [("v", VNum 2)]);
                  ("Sensor2", VObj [("ts", VNum 1732012345500); ("v", VNum 3)])])
           1%nat 1732012345500%Q).
  - reflexivity.
  - reflexivity.
  - reflexivity.
  - lia.
  - intros i Hi. assert (i = 0%nat) as -> by lia. reflexivity.
  - reflexivity.
Defined.

(** * Legacy messages without readings *)

Lemma readingsOf_nil_deviceTs (raw : jsval) :
  readingsOf raw = [] → deviceTs (firstOrSelf raw) = None.
Proof.
  unfold readingsOf, deviceTs.
  destruct raw as [| |b|q|s|elems|props]; simpl; try done.
  - by destruct b.
  - by destruct (negb (Qeq_bool q 0)).
  - by destruct (negb (String.eqb s "")).
  - by intros ->.
Qed.

Section LegacyPrune.
Context `{Platform}.
#[local] Arguments updateOffset : simpl never.

(** X16: a legacy message on a mapped topic whose four sensor slots hold
    no reading (missing, falsy or empty) still rewrites the four mapped
    windows: each loses the points older than the window and gains none;
    nothing else changes, the offset estimate included. *)
Theorem legacy_message_without_readings_prunes (browserNow now : Z)
    (topic message : string) (mapping : list string) (st : State)
    (data : jsval) :
  TOPIC_MAP !! topic = Some mapping →
  JSON_parse message = Some data →
  isNullish data = false →
  (∀ i, (i < 4)%nat → readingsOf (slotValue data i) = []) →
  ∃ st',
    handleMessage original browserNow now topic message st = (st', Completed) ∧
    (∀ key, key ∈ mapping →
       piezo st' !! key =
         Some (List.filter (inWindow now) (windowOf (piezo st) key))) ∧
    (∀ key, key ∉ mapping → piezo st' !! key = piezo st !! key) ∧
    temp1 st' = temp1 st ∧ hum1 st' = hum1 st ∧
    temp2 st' = temp2 st ∧ hum2 st' = hum2 st ∧
    offsetRef st' = offsetRef st ∧ offsetSamples st' = offsetSamples st.
Proof.
  intros Hmap Hparse Hd Hempty.
  apply TOPIC_MAP_lookup in Hmap as Hm. destruct Hm as [_ ->].
  assert (Hoff : updateOffset 0 4 data browserNow st = Some st).
  { change 4%nat with (4 + 0)%nat. rewrite updateOffset_skip; [done..|].
    intros j Hj. apply readingsOf_nil_deviceTs, Hempty. lia. }
  assert (Hok : readingsConvert data = true).
  { unfold readingsConvert. apply forallb_forall. intros i Hi.
    apply in_seq in Hi. unfold slotReadable. rewrite Hempty by lia. done. }
  destruct (proj2 (storeLegacy_is_Some (offsetRef st) now data (piezo st) Hd) Hok)
    as [updated Hst].
  exists (setPiezo (λ _, updated) st). split.
  { unfold handleMessage, piezoTry. rewrite Hmap, Hparse. simpl.
    rewrite Hoff. simpl. by rewrite Hst. }
  simpl. split; [|split; [|done]].
  - intros key Hkey. apply list_elem_of_lookup in Hkey as [i Hi].
    destruct (storeLegacy_mapped _ _ _ _ _ key i updated mapping_NoDup Hst Hi)
      as (raw & newPoints & Hraw & Hpts & ->).
    rewrite (slotValue_get data i Hd) in Hraw. injection Hraw as <-.
    apply lookup_lt_Some in Hi. simpl in Hi.
    rewrite Hempty in Hpts by lia. injection Hpts as <-.
    unfold combine. by rewrite app_nil_r.
  - intros key Hkey. by eapply storeLegacy_unmapped.
Qed.

End LegacyPrune.

Lemma legacy_message_without_readings_prunes_witness :
  ∃ st',
    @handleMessage Demo.platform original 1732012345000 1732012346000
      "iot/piezo" "{}" initialState = (st', Completed) ∧
    (∀ key, key ∈ ["A1"; "B1"; "C1"; "A2"] →
       piezo st' !! key =
         Some (List.filter (inWindow 1732012346000)
                 (windowOf (piezo initialState) key))) ∧
    (∀ key, key ∉ ["A1"; "B1"; "C1"; "A2"] →
       piezo st' !! key = piezo initialState !! key) ∧
    temp1 st' = temp1 initialState ∧ hum1 st' = hum1 initialState ∧
    temp2 st' = temp2 initialState ∧ hum2 st' = hum2 initialState ∧
    offsetRef st' = offsetRef initialState ∧
    offsetSamples st' = offsetSamples initialState.
Proof.
  apply (@legacy_message_without_readings_prunes Demo.platform 1732012345000
           1732012346000 "iot/piezo" "{}" ["A1"; "B1"; "C1"; "A2"]
           initialState (VObj [])); reflexivity.
Defined.

(** * The temperature and humidity readings *)

Section TempReadings.
Context `{Platform}.

(** X17: in legacy mode a parsed message on the temp topic whose payload
    is not [null] sets the first temperature to
    [Number(Temperature) || 0] and then the first humidity to
    [Number(Humidity) || 0], whatever the readings were before. When the
    conversion of [Temperature] throws, neither reading is written; when
    only that of [Humidity] throws, the temperature has been written and
    the humidity keeps its value; the handler's [catch] logs both throws.
    Nothing else of the state changes. *)
Theorem legacy_temp_outcome (browserNow now : Z) (message : string)
    (st : State) (data : jsval) :
  JSON_parse message = Some data →
  isNullish data = false →
  let result := handleMessage original browserNow now "iot/temp" message st in
  let Temperature := default VUndefined (get_prop data "Temperature") in
  let Humidity := default VUndefined (get_prop data "Humidity") in
  if conversionThrows Temperature then result = (st, Caught)
  else
    ∃ t, NumberOrZero Temperature = Some t ∧
      if conversionThrows Humidity then result = (setTemp1 t st, Caught)
      else
        ∃ h, NumberOrZero Humidity = Some h ∧
          result = (setHum1 h (setTemp1 t st), Completed).
Proof.
  intros Hparse Hd.
  destruct (get_prop_readable data "Temperature" Hd) as [T HT].
  destruct (get_prop_readable data "Humidity" Hd) as [Hm HHm].
  unfold handleMessage, tempTry, tempLegacy.
  rewrite TOPIC_MAP_temp, Hparse, HT, HHm. simpl.
  pose proof (NumberOrZero_is_Some T) as HnT.
  pose proof (NumberOrZero_is_Some Hm) as HnH.
  destruct (conversionThrows T).
  - destruct (NumberOrZero T) as [t|]; [|done].
    discriminate (proj1 HnT ltac:(eauto)).
  - destruct (proj2 HnT eq_refl) as [t ->]. exists t. split; [done|].
    destruct (conversionThrows Hm).
    + destruct (NumberOrZero Hm) as [h|]; [|done].
      discriminate (proj1 HnH ltac:(eauto)).
    + destruct (proj2 HnH eq_refl) as [h ->]. by exists h.
Qed.

(** X18: in binary mode a message on the temp topic with a payload either
    fails to decode (invalid Base64 or fewer than 8 bytes) and leaves the
    state as it was, or sets the first temperature to raw/100 for a signed
    16-bit raw and the first humidity to raw/100 for an unsigned 16-bit
    raw, read from bytes 4-5 and 6-7; nothing else changes. *)
Theorem binary_temp_reading (browserNow now : Z) (message : string)
    (st : State) (data b : jsval) :
  JSON_parse message = Some data →
  get_prop data "base64_sensordata" = Some b →
  truthy b = true →
  let st' := fst (handleMessage base64 browserNow now "iot/temp" message st) in
  match atob (toStr b) with
  | None => st' = st
  | Some bytes =>
      if (length bytes <? 8)%nat then st' = st
      else
        (∃ t, DataView.getInt16 bytes 4 = Some t ∧ -32768 ≤ t ≤ 32767 ∧
              temp1 st' = (t # 100)%Q) ∧
        (∃ h, DataView.getUint16 bytes 6 = Some h ∧ 0 ≤ h ≤ 65535 ∧
              hum1 st' = (h # 100)%Q) ∧
        piezo st' = piezo st ∧ temp2 st' = temp2 st ∧ hum2 st' = hum2 st ∧
        offsetRef st' = offsetRef st ∧ offsetSamples st' = offsetSamples st
  end.
Proof.
  intros Hparse Hb Htruthy. unfold handleMessage, tempTry.
  rewrite TOPIC_MAP_temp, Hparse. simpl. rewrite Hb. simpl.
  rewrite Htruthy. unfold decodeTempHumData.
  destruct (atob (toStr b)) as [bytes|]; simpl; [|done].
  destruct (Nat.ltb_spec (length bytes) 8) as [Hshort|Hlong].
  - by rewrite decodeTempHumBytes_short.
  - unfold decodeTempHumBytes.
    destruct (getUint32_readable bytes 0) as [ts ->]; [lia|].
    destruct (getInt16_Some bytes 4) as [t Ht]; [lia|].
    destruct (getUint16_Some bytes 6) as [h Hh]; [lia|].
    rewrite Ht, Hh. simpl.
    pose proof (getInt16_bounds _ _ _ Ht). pose proof (getUint16_range _ _ _ Hh).
    split; [exists t; repeat split; (lia || done)|].
    split; [exists h; repeat split; (lia || done)|]. done.
Qed.

End TempReadings.

Lemma legacy_temp_outcome_witness :
  @handleMessage Demo.platform original 1732012345000 1732012346000
    "iot/temp" (Demo.json "{'Temperature':{'toString':1},'Humidity':40}")
    (setHum1 40 (setTemp1 21.5 initialState)) =
  (setHum1 40 (setTemp1 21.5 initialState), Caught).
Proof.
  apply (@legacy_temp_outcome Demo.platform 1732012345000 1732012346000
           (Demo.json "{'Temperature':{'toString':1},'Humidity':40}")
           (setHum1 40 (setTemp1 21.5 initialState))
           (VObj [("Temperature", VObj [("toString", VNum 1)]);
                  ("Humidity", VNum 40)]));
    reflexivity.
Defined.

Lemma binary_temp_reading_witness :
  let st' := fst (@handleMessage Demo.platform base64 1732012345000
                    1732012346000 "iot/temp"
                    (Demo.json "{'base64_sensordata':'WZpGZykJhRo='}")
                    initialState) in
  match @atob Demo.platform (@toStr Demo.platform (VStr "WZpGZykJhRo=")) with
  | None => st' = initialState
  | Some bytes =>
      if (length bytes <? 8)%nat then st' = initialState
      else
        (∃ t, DataView.getInt16 bytes 4 = Some t ∧ -32768 ≤ t ≤ 32767 ∧
              temp1 st' = (t # 100)%Q) ∧
        (∃ h, DataView.getUint16 bytes 6 = Some h ∧ 0 ≤ h ≤ 65535 ∧
              hum1 st' = (h # 100)%Q) ∧
        piezo st' = piezo initialState ∧
        temp2 st' = temp2 initialState ∧ hum2 st' = hum2 initialState ∧
        offsetRef st' = offsetRef initialState ∧
        offsetSamples st' = offsetSamples initialState
  end.
Proof.
  apply (@binary_temp_reading Demo.platform 1732012345000 1732012346000
           (Demo.json "{'base64_sensordata':'WZpGZykJhRo='}") initialState
           (VObj [("base64_sensordata", VStr "WZpGZykJhRo=")])
           (VStr "WZpGZykJhRo="));
    reflexivity.
Defined.

(** * Connection state and diagnostics *)

Lemma sliceLast10_length {A : Type} (l : list A) :
  (length (sliceLast10 l) ≤ 10)%nat.
Proof. unfold sliceLast10. rewrite length_drop. lia. Qed.

Lemma sliceLast10_snoc {A : Type} (l : list A) (x : A) :
  sliceLast10 (sliceLast10 l ++ [x]) = sliceLast10 (l ++ [x]).
Proof.
  unfold sliceLast10. rewrite !length_app, length_drop. simpl.
  destruct (decide (length l ≤ 10)%nat) as [Hle|Hgt].
  - replace (length l - 10)%nat with 0%nat by lia.
    by rewrite drop_0, Nat.sub_0_r.
  - rewrite <- drop_app_le by lia. rewrite drop_drop. f_equal. lia.
Qed.

Lemma sliceLast10_short {A : Type} (l : list A) :
  (length l ≤ 10)%nat → sliceLast10 l = l.
Proof.
  intros Hle. unfold sliceLast10.
  replace (length l - 10)%nat with 0%nat by lia. apply drop_0.
Qed.

Lemma handleEvents_snoc (evs : list ClientEvent) (ev : ClientEvent)
    (dg : Diagnostics) :
  handleEvents (evs ++ [ev]) dg = handleEvent (handleEvents evs dg) ev.
Proof. unfold handleEvents. by rewrite foldl_app. Qed.

Lemma addConnectionEvent_length (timestamp event : string) (dg : Diagnostics) :
  (length (connectionEvents (addConnectionEvent timestamp event dg)) ≤ 10)%nat.
Proof. apply sliceLast10_length. Qed.

Lemma handleErrors_spec (message : string) (later : list string) :
  ∀ (timestamp : string) (dg : Diagnostics),
  let dg' := foldl (λ dg t, handleError message t dg) dg (timestamp :: later) in
  isConnected dg' = false ∧
  (length (connectionEvents dg') ≤ 10)%nat ∧
  messageCount dg' = messageCount dg ∧
  topicMessages dg' = topicMessages dg.
Proof.
  induction later as [|t later IH]; intros timestamp dg.
  - simpl. split; [done|]. split; [apply sliceLast10_length | done].
  - destruct (IH t (handleError message timestamp dg)) as (Hc & Hl & Hm & Ht).
    split; [exact Hc|]. split; [exact Hl|]. split; [exact Hm | exact Ht].
Qed.

Lemma handleEvent_log_length (dg : Diagnostics) (ev : ClientEvent) :
  (length (connectionEvents dg) ≤ 10)%nat →
  (length (connectionEvents (handleEvent dg ev)) ≤ 10)%nat.
Proof.
  intros Hlen.
  destruct ev as [| ? [] | | | | message timestamp later | |];
    try apply sliceLast10_length; [|exact Hlen].
  apply (handleErrors_spec message later timestamp dg).
Qed.

(** X19: the connection log holds the last ten entries in the order they
    were added: after any number of calls of [addConnectionEvent] on a
    log of at most ten entries, the log is the last ten of the old
    entries followed by the added ones; after a call the log never has
    more than ten entries, and so it is along every session, whatever
    the events. *)
Theorem connection_log_keeps_last_ten :
  (∀ entries dg,
     (length (connectionEvents dg) ≤ 10)%nat →
     connectionEvents
       (foldl (λ d e, addConnectionEvent e.1 e.2 d) dg entries) =
     drop (length (connectionEvents dg ++ entries) - 10)
          (connectionEvents dg ++ entries)) ∧
  (∀ timestamp event dg,
     (length (connectionEvents (addConnectionEvent timestamp event dg))
      ≤ 10)%nat) ∧
  (∀ evs, (length (connectionEvents (handleEvents evs initialDiagnostics))
           ≤ 10)%nat).
Proof.
  split; [|split; [exact addConnectionEvent_length|]].
  - intros entries dg Hlen.
    induction entries as [|e entries IH] using rev_ind.
    + simpl. rewrite app_nil_r. symmetry. by apply sliceLast10_short.
    + rewrite foldl_app. simpl. rewrite IH.
      destruct e as [t e]. simpl.
      change (drop (length (connectionEvents dg ++ entries) - 10)
                (connectionEvents dg ++ entries))
        with (sliceLast10 (connectionEvents dg ++ entries)).
      rewrite sliceLast10_snoc, <- app_assoc. reflexivity.
  - intros evs. induction evs as [|ev evs IH] using rev_ind; [simpl; lia|].
    rewrite handleEvents_snoc. by apply handleEvent_log_length.
Qed.

(** X20: the connection indicator follows the last event that writes it:
    after any events it is true exactly when the last connect, disconnect,
    offline or error event among them was a connect, and it keeps its
    earlier value when there was none; reconnect attempts, subscribe
    results and messages never change it. *)
Theorem connected_follows_last_link_event (evs : list ClientEvent)
    (dg : Diagnostics) :
  isConnected (handleEvents evs dg) =
  match last (List.filter writesConnected evs) with
  | Some (EvConnect _) => true
  | Some _ => false
  | None => isConnected dg
  end.
Proof.
  induction evs as [|ev evs IH] using rev_ind; [done|].
  rewrite handleEvents_snoc, List.filter_app.
  destruct ev as [| ? [] | | | | message timestamp later | |];
    cbn [List.filter writesConnected];
    rewrite ?app_nil_r, ?last_snoc; try exact IH; try reflexivity.
  apply (handleErrors_spec message later timestamp (handleEvents evs dg)).
Qed.

Lemma default_insert_count (m : gmap string nat) (topic t : string) :
  default 0%nat
    (<[topic := (default 0%nat (m !! topic) + 1)%nat]> m !! t) =
  (default 0%nat (m !! t) + (if String.eqb topic t then 1 else 0))%nat.
Proof.
  destruct (String.eqb_spec topic t) as [->|Hne].
  - by rewrite lookup_insert_eq.
  - rewrite lookup_insert_ne by done. lia.
Qed.

(** X21: the message counters count every message delivered on the
    subscribed topics, whatever its mode and payload: after any events
    the total has grown by the number of messages among them and the
    counter of each subscribed topic by the number of messages on that
    topic, so from the initial state no topic counter exceeds the
    total. *)
Theorem message_counters_count (evs : list ClientEvent) (dg : Diagnostics)
    (topic : string) :
  Forall onSubscribedTopic evs →
  topic ∈ subscribeTopics →
  messageCount (handleEvents evs dg) =
    (messageCount dg + length (List.filter isMessage evs))%nat ∧
  default 0%nat (topicMessages (handleEvents evs dg) !! topic) =
    (default 0%nat (topicMessages dg !! topic) +
     length (List.filter (isMessageOn topic) evs))%nat ∧
  (default 0%nat (topicMessages (handleEvents evs initialDiagnostics) !! topic)
   ≤ messageCount (handleEvents evs initialDiagnostics))%nat.
Proof.
  intros _ _.
  assert (Hgen : ∀ dg0,
    messageCount (handleEvents evs dg0) =
      (messageCount dg0 + length (List.filter isMessage evs))%nat ∧
    default 0%nat (topicMessages (handleEvents evs dg0) !! topic) =
      (default 0%nat (topicMessages dg0 !! topic) +
       length (List.filter (isMessageOn topic) evs))%nat).
  { intros dg0. induction evs as [|ev evs [IHc IHt]] using rev_ind;
      [simpl; split; lia|].
    rewrite handleEvents_snoc, !List.filter_app, !length_app.
    destruct ev as [| ? [] | | | | message timestamp later
                    | t text len time |];
      try (simpl; split; lia).
    - destruct (handleErrors_spec message later timestamp (handleEvents evs dg0))
        as (_ & _ & Hm & Ht).
      cbn [handleEvent List.filter isMessage isMessageOn length].
      rewrite Hm, Ht. split; lia.
    - simpl. rewrite default_insert_count, IHc, IHt.
      rewrite (String.eqb_sym t topic).
      destruct (String.eqb topic t); simpl; split; lia. }
  destruct (Hgen dg) as [Hc Ht]. split; [done|]. split; [done|].
  destruct (Hgen initialDiagnostics) as [-> ->]. simpl.
  rewrite lookup_empty. simpl.
  clear. induction evs as [|ev evs IH]; simpl; [lia|].
  destruct ev; simpl; try lia.
  destruct (String.eqb _ _); simpl; lia.
Qed.

Lemma message_counters_count_witness :
  Forall onSubscribedTopic demo_session ∧
  "iot/piezo" ∈ subscribeTopics ∧
  messageCount (handleEvents demo_session initialDiagnostics) =
    (messageCount initialDiagnostics +
     length (List.filter isMessage demo_session))%nat ∧
  default 0%nat
    (topicMessages (handleEvents demo_session initialDiagnostics) !! "iot/piezo") =
    (default 0%nat (topicMessages initialDiagnostics !! "iot/piezo") +
     length (List.filter (isMessageOn "iot/piezo") demo_session))%nat ∧
  (default 0%nat
     (topicMessages (handleEvents demo_session initialDiagnostics) !! "iot/piezo")
   ≤ messageCount (handleEvents demo_session initialDiagnostics))%nat.
Proof.
  assert (Htopic : "iot/piezo" ∈ subscribeTopics)
    by (unfold subscribeTopics; repeat constructor).
  assert (Hevs : Forall onSubscribedTopic demo_session)
    by (unfold demo_session, onSubscribedTopic, subscribeTopics;
        repeat constructor).
  split; [exact Hevs|]. split; [exact Htopic|].
  exact (message_counters_count demo_session initialDiagnostics "iot/piezo"
           Hevs Htopic).
Defined.
